(** * Q-learning family learners of xuance: DDQN, DRQN and PER-DQN

    A shallow embedding of
      - xuance/torch/learners/qlearning_family/ddqn_learner.py   (DDQN_Learner.update)
      - xuance/torch/learners/qlearning_family/drqn_learner.py   (DRQN_Learner.update)
      - xuance/torch/learners/qlearning_family/perdqn_learner.py (PerDQN_Learner)

    Modelling choices.
      - Tensor entries are exact rationals [Q]; numerical equalities are
        stated up to [Qeq] ([==]).
      - Tensors are nested lists.  Element-wise operations fail with a shape
        error when the lengths differ (the batch invariant says all arrays
        share their leading dimension; broadcasting of unit dimensions is
        not modelled).
      - The networks, optimizer and scheduler are opaque: they are
        section variables, or fields of a policy record.
      - [update] runs in a state-and-exception monad over the learner: as in
        Python, a raised exception does not roll back what was mutated
        before it.  *)

From Stdlib Require Import String.
From Stdlib Require Import QArith Qminmax Qabs List Lia ZArith Bool.
From Stdlib Require Import FunctionalExtensionality.
Import ListNotations.

(** ** Python exceptions and results *)

Inductive exn : Type :=
| KeyError (k : string)
| TypeError
| IndexError
| ShapeError
| ZeroDivisionError.

Inductive result (A : Type) : Type :=
| Ok (a : A)
| Err (e : exn).
Arguments Ok {A} a.
Arguments Err {A} e.

Definition rbind {A B} (m : result A) (k : A -> result B) : result B :=
  match m with
  | Ok a => k a
  | Err e => Err e
  end.

Notation "'let?' x ':=' m 'in' k" := (rbind m (fun x => k))
  (at level 200, x name, m at level 100, k at level 200).

(** ** Tensor helpers *)

Fixpoint mapM {A B} (f : A -> result B) (l : list A) : result (list B) :=
  match l with
  | [] => Ok []
  | x :: l' => let? y := f x in let? ys := mapM f l' in Ok (y :: ys)
  end.

(** Element-wise binary operation with a fallible kernel. *)
Fixpoint zipM {A B C} (f : A -> B -> result C) (xs : list A) (ys : list B)
  : result (list C) :=
  match xs, ys with
  | [], [] => Ok []
  | x :: xs', y :: ys' =>
      let? z := f x y in let? zs := zipM f xs' ys' in Ok (z :: zs)
  | _, _ => Err ShapeError
  end.

Definition zip_with {A B C} (f : A -> B -> C) : list A -> list B -> result (list C) :=
  zipM (fun a b => Ok (f a b)).

Definition qsum (l : list Q) : Q := fold_right Qplus 0 l.

Definition qmean (l : list Q) : Q := qsum l / inject_Z (Z.of_nat (length l)).

(** [nn.functional.one_hot(a, n)] for a single class index. *)
Definition one_hot (a : Z) (n : nat) : result (list Q) :=
  if (0 <=? a)%Z && (a <? Z.of_nat n)%Z
  then Ok (map (fun j => if Z.eqb (Z.of_nat j) a then 1 else 0) (seq 0 n))
  else Err IndexError.

(** [(values * one_hot).sum(dim=-1)] for one row. *)
Definition mask_sum (values mask : list Q) : result Q :=
  let? prod := zip_with Qmult values mask in Ok (qsum prod).

(** Selection of the value at index [a] by one-hot masking, the width of
    the one-hot vector being the row's last dimension. *)
Definition onehot_select (a : Z) (values : list Q) : result Q :=
  let? oh := one_hot a (length values) in mask_sum values oh.

(** [targetQ.max(dim=-1).values] for one row. *)
Definition row_max (values : list Q) : result Q :=
  match values with
  | [] => Err ShapeError
  | v :: vs => Ok (fold_left Qmax vs v)
  end.

(** [rew_batch + self.gamma * (1 - ter_batch) * targetQ] on 1D tensors. *)
Definition td_targets (gamma : Q) (rew ter boot : list Q) : result (list Q) :=
  let? cont := zip_with (fun d b => gamma * (1 - d) * b) ter boot in
  zip_with Qplus rew cont.

(** The same expression on 2D tensors [B, T]. *)
Definition td_targets2 (gamma : Q) (rew ter boot : list (list Q))
  : result (list (list Q)) :=
  let? cont := zipM (zip_with (fun d b => gamma * (1 - d) * b)) ter boot in
  zipM (zip_with Qplus) rew cont.

(** [nn.MSELoss()(predictQ, targetQ)]: the mean of squared differences. *)
Definition mse (pred tgt : list Q) : result Q :=
  let? sq := zip_with (fun p t => (p - t) * (p - t)) pred tgt in Ok (qmean sq).

(** Decimal rendering of a rank, as in the f-strings [f"Qloss/rank_{self.rank}"]. *)
Fixpoint digits_aux (fuel n : nat) (acc : string) : string :=
  match fuel with
  | O => acc
  | S fuel' =>
      let d := String (Ascii.ascii_of_nat (48 + n mod 10)) EmptyString in
      if n <? 10 then (d ++ acc)%string
      else digits_aux fuel' (n / 10) (d ++ acc)%string
  end.

Definition string_of_nat (n : nat) : string := digits_aux (S n) n EmptyString.

(** ** Sample mappings ([**samples]) *)

Section Learners.

(** [Obs]: one observation; [P]: network parameters; [OptState]: the Adam
    state together with its LinearLR schedule; [H]: the recurrent hidden
    state (the tuple unpacked with [*]). *)
Context {Obs P OptState H : Type}.

(** Values a sample mapping holds. *)
Inductive sval : Type :=
| VObs (v : list Obs)               (** observations [B, ...] *)
| VObsSeq (v : list (list Obs))     (** observation sequences [B, T+1, ...] *)
| VAct (v : list Z)                 (** actions [B] *)
| VActSeq (v : list (list Z))       (** actions [B, T] *)
| VReal (v : list Q)                (** rewards, terminals, weights [B] *)
| VRealSeq (v : list (list Q))      (** rewards, terminals [B, T] *)
| VSize (n : nat).                  (** the [batch_size] scalar *)

(** A Python dict, in insertion order. *)
Definition samples := list (string * sval).

Fixpoint lookup (k : string) (s : samples) : option sval :=
  match s with
  | [] => None
  | (k', v) :: s' => if String.eqb k k' then Some v else lookup k s'
  end.

Definition get_key (s : samples) (k : string) : result sval :=
  match lookup k s with Some v => Ok v | None => Err (KeyError k) end.

Definition get_obs (s : samples) (k : string) : result (list Obs) :=
  let? v := get_key s k in match v with VObs o => Ok o | _ => Err TypeError end.
Definition get_obs_seq (s : samples) (k : string) : result (list (list Obs)) :=
  let? v := get_key s k in match v with VObsSeq o => Ok o | _ => Err TypeError end.
Definition get_act (s : samples) (k : string) : result (list Z) :=
  let? v := get_key s k in match v with VAct a => Ok a | _ => Err TypeError end.
Definition get_act_seq (s : samples) (k : string) : result (list (list Z)) :=
  let? v := get_key s k in match v with VActSeq a => Ok a | _ => Err TypeError end.
Definition get_real (s : samples) (k : string) : result (list Q) :=
  let? v := get_key s k in match v with VReal r => Ok r | _ => Err TypeError end.
Definition get_real_seq (s : samples) (k : string) : result (list (list Q)) :=
  let? v := get_key s k in match v with VRealSeq r => Ok r | _ => Err TypeError end.
Definition get_size (s : samples) (k : string) : result nat :=
  let? v := get_key s k in match v with VSize n => Ok n | _ => Err TypeError end.

(** ** Configuration and learner state *)

Record config : Type := {
  gamma : Q;
  sync_frequency : Z;
  distributed_training : bool;
  rank : nat;                (** [self.rank] *)
  world_size : nat;          (** [self.world_size] *)
  env_RANK : nat             (** [int(os.environ['RANK'])] *)
}.

Variable cfg : config.

Record learner : Type := {
  iterations : Z;
  online : P;                (** evaluation-network parameters *)
  target_params : P;         (** target-network parameters *)
  optim : OptState
}.

(** [optimizer.zero_grad(); loss.backward(); clip_grad_norm_ (when enabled);
    optimizer.step()]: a new optimizer state and new online parameters,
    from the loss as a function of the online parameters. *)
Variable opt_step : OptState -> P -> (P -> result Q) -> OptState * P.
(** [self.scheduler.step()] *)
Variable sched_step : OptState -> OptState.
(** [self.optimizer.state_dict()['param_groups'][0]['lr']] *)
Variable opt_lr : OptState -> Q.

(** Modelled from the spec: [policy.copy_target()] of the policy classes
    (not part of this code) hard-copies the online parameters into the
    target network. *)
Definition copy_target (L : learner) : learner :=
  {| iterations := iterations L; online := online L;
     target_params := online L; optim := optim L |}.

(** ** A state-and-exception monad over the learner *)

Definition SE (A : Type) : Type := learner -> learner * result A.

Definition ret {A} (a : A) : SE A := fun L => (L, Ok a).
Definition bindSE {A B} (m : SE A) (k : A -> SE B) : SE B :=
  fun L => let '(L', r) := m L in
           match r with Ok a => k a L' | Err e => (L', Err e) end.
Definition get : SE learner := fun L => (L, Ok L).
Definition put (L : learner) : SE unit := fun _ => (L, Ok tt).
Definition raise {A} (e : exn) : SE A := fun L => (L, Err e).
Definition lift {A} (r : result A) : SE A := fun L => (L, r).

Notation "x <- m ;; k" := (bindSE m (fun x => k))
  (at level 100, m at next level, right associativity).
Notation "m ;;; k" := (bindSE m (fun _ => k))
  (at level 100, right associativity).

(** [self.iterations += 1] *)
Definition incr_iterations : SE unit :=
  L <- get ;;
  put {| iterations := iterations L + 1; online := online L;
         target_params := target_params L; optim := optim L |}.

(** [if self.iterations % self.sync_frequency == 0: self.policy.copy_target()];
    Python's [%] raises on a zero divisor and otherwise takes the sign of
    the divisor, as [Z.modulo] does. *)
Definition sync_target : SE unit :=
  L <- get ;;
  if Z.eqb (sync_frequency cfg) 0 then raise ZeroDivisionError
  else if Z.eqb (Z.modulo (iterations L) (sync_frequency cfg)) 0
  then put (copy_target L) else ret tt.

(** The statistics dictionary. *)
Definition info := list (string * Q).

Definition make_info (loss lr pred_mean : Q) : info :=
  if distributed_training cfg then
    let r := string_of_nat (rank cfg) in
    [(("Qloss/rank_" ++ r)%string, loss);
     (("learning_rate/rank_" ++ r)%string, lr);
     (("predictQ/rank_" ++ r)%string, pred_mean)]
  else [("Qloss"%string, loss); ("learning_rate"%string, lr);
        ("predictQ"%string, pred_mean)].

(** What the forward part of an update hands to the shared tail: the loss
    as a function of the online parameters, its value at the current online
    parameters, and the flattened [predictQ]. *)
Record forward_out : Type := {
  loss_fn : P -> result Q;
  loss_val : Q;
  predict_flat : list Q
}.

(** The shared tail of every [update]: gradient step, scheduler step,
    periodic hard sync, statistics. *)
Definition finish_update (fo : forward_out) : SE info :=
  L <- get ;;
  let '(o', theta') := opt_step (optim L) (online L) (loss_fn fo) in
  put {| iterations := iterations L; online := theta';
         target_params := target_params L; optim := sched_step o' |} ;;;
  sync_target ;;;
  L' <- get ;;
  ret (make_info (loss_val fo) (opt_lr (optim L')) (qmean (predict_flat fo))).

(** ** Policies with a feed-forward Q network *)

(** [self.policy(obs)] and [self.policy.target(obs)] return
    [(aux, argmax_action, action_values)]; the networks act row by row. *)
Record qpolicy : Type := {
  q_eval : P -> Obs -> Z * list Q;
  q_target : P -> Obs -> Z * list Q
}.

(** [predictQ = (evalQ * one_hot(act_batch.long(), n)).sum(dim=-1)] *)
Definition predict_q (pol : qpolicy) (theta : P) (obs : list Obs) (act : list Z)
  : result (list Q) :=
  zipM (fun o a => onehot_select a (snd (q_eval pol theta o))) obs act.

(** [self.mse_loss(predictQ, targetQ)] as a function of the online parameters. *)
Definition q_loss (pol : qpolicy) (obs : list Obs) (act : list Z) (tgt : list Q)
  : P -> result Q :=
  fun theta => let? p := predict_q pol theta obs act in mse p tgt.

(** ** DDQN_Learner *)

(** Lines 35-39: the target network's arg-max, one-hot masked against its
    own action values, then the TD target. *)
Definition ddqn_bootstrap (pol : qpolicy) (theta_t : P) (nxt : list Obs)
  : result (list Q) :=
  mapM (fun o => onehot_select (fst (q_target pol theta_t o))
                               (snd (q_target pol theta_t o))) nxt.

Definition ddqn_targets (pol : qpolicy) (theta_t : P) (nxt : list Obs)
  (rew ter : list Q) : result (list Q) :=
  let? boot := ddqn_bootstrap pol theta_t nxt in
  td_targets (gamma cfg) rew ter boot.

Definition ddqn_forward (pol : qpolicy) (s : samples) (L : learner)
  : result forward_out :=
  let? obs := get_obs s "obs" in
  let? act := get_act s "actions" in
  let? nxt := get_obs s "obs_next" in
  let? rew := get_real s "rewards" in
  let? ter := get_real s "terminals" in
  let? tgt := ddqn_targets pol (target_params L) nxt rew ter in
  let? pred := predict_q pol (online L) obs act in
  let? loss := mse pred tgt in
  Ok {| loss_fn := q_loss pol obs act tgt; loss_val := loss; predict_flat := pred |}.

Definition ddqn_update (pol : qpolicy) (s : samples) : SE info :=
  incr_iterations ;;;
  L <- get ;;
  fo <- lift (ddqn_forward pol s L) ;;
  finish_update fo.

(** ** DRQN_Learner *)

(** A recurrent policy: [init_hidden(batch_size)], and forward passes that
    take observation sequences and an explicit hidden state and return
    [(aux, argmax_action, action_values, hidden)]. *)
Record rpolicy : Type := {
  init_hidden : nat -> H;
  r_eval : P -> list (list Obs) -> H -> list (list Z) * list (list (list Q)) * H;
  r_target : P -> list (list Obs) -> H -> list (list Z) * list (list (list Q)) * H
}.

(** [obs_batch[:, 0:-1]] and [obs_batch[:, 1:]] on one sequence. *)
Definition slice_cur {A} (row : list A) : list A := firstn (length row - 1) row.
Definition slice_next {A} (row : list A) : list A := skipn 1 row.

(** Lines 111-114. *)
Definition drqn_targets (tA : list (list Z)) (tQ : list (list (list Q)))
  (rew ter : list (list Q)) : result (list (list Q)) :=
  let? boot := zipM (zipM onehot_select) tA tQ in
  td_targets2 (gamma cfg) rew ter boot.

(** Line 115. *)
Definition drqn_predict (eQ : list (list (list Q))) (act : list (list Z))
  : result (list (list Q)) :=
  zipM (zipM (fun q a => onehot_select a q)) eQ act.

Definition mse2 (pred tgt : list (list Q)) : result Q :=
  let? sq := zipM (zip_with (fun p t => (p - t) * (p - t))) pred tgt in
  Ok (qmean (concat sq)).

Definition drqn_loss (eval_q : P -> list (list (list Q))) (act : list (list Z))
  (tgt : list (list Q)) : P -> result Q :=
  fun theta => let? p := drqn_predict (eval_q theta) act in mse2 p tgt.

(** Lines 98-117.  [_, _, evalQ, _ = self.policy(obs_batch[:, 0:-1], *rnn_hidden)]
    and [_, targetA, targetQ, _ = self.policy.target(obs_batch[:, 1:], *target_rnn_hidden)],
    each hidden state from its own call [self.policy.init_hidden(batch_size)]. *)
Definition drqn_forward (pol : rpolicy) (s : samples) (L : learner)
  : result forward_out :=
  let? obs := get_obs_seq s "obs" in
  let? act := get_act_seq s "actions" in
  let? rew := get_real_seq s "rewards" in
  let? ter := get_real_seq s "terminals" in
  let? bs := get_size s "batch_size" in
  let eval_q := fun theta =>
    snd (fst (r_eval pol theta (map slice_cur obs) (init_hidden pol bs))) in
  let tout :=
    fst (r_target pol (target_params L) (map slice_next obs) (init_hidden pol bs)) in
  let? tgt := drqn_targets (fst tout) (snd tout) rew ter in
  let? pred := drqn_predict (eval_q (online L)) act in
  let? loss := mse2 pred tgt in
  Ok {| loss_fn := drqn_loss eval_q act tgt; loss_val := loss;
        predict_flat := concat pred |}.

Definition drqn_update (pol : rpolicy) (s : samples) : SE info :=
  incr_iterations ;;;
  L <- get ;;
  fo <- lift (drqn_forward pol s L) ;;
  finish_update fo.

(** ** PerDQN_Learner *)

Definition skip_key (k : string) : bool :=
  String.eqb k "batch_size" || String.eqb k "weights" || String.eqb k "step_choices".

(** The entries of a sample mapping other than [weights] and [step_choices]. *)
Definition strip_passthrough (s : samples) : samples :=
  filter (fun kv => negb (String.eqb (fst kv) "weights" ||
                          String.eqb (fst kv) "step_choices")) s.

(** [v[indices]] with a [range] of row indices (numpy fancy indexing). *)
Definition take_rows {A} (xs : list A) (idx : list nat) : result (list A) :=
  mapM (fun i => match nth_error xs i with Some x => Ok x | None => Err IndexError end) idx.

Definition index_sval (v : sval) (idx : list nat) : result sval :=
  match v with
  | VObs o => let? o' := take_rows o idx in Ok (VObs o')
  | VObsSeq o => let? o' := take_rows o idx in Ok (VObsSeq o')
  | VAct a => let? a' := take_rows a idx in Ok (VAct a')
  | VActSeq a => let? a' := take_rows a idx in Ok (VActSeq a')
  | VReal r => let? r' := take_rows r idx in Ok (VReal r')
  | VRealSeq r => let? r' := take_rows r idx in Ok (VRealSeq r')
  | VSize _ => Err TypeError
  end.

(** Lines 179-183: the rows selected by worker [r] of [W]. *)
Definition shard_indices (W r B : nat) : list nat :=
  let l := (B / W)%nat in
  if (r <? W - 1)%nat then seq (r * l)%nat l else seq (r * l)%nat (B - r * l)%nat.

Definition build_training_data (s : samples) : result samples :=
  let? B := get_size s "batch_size" in
  let kept := filter (fun kv => negb (skip_key (fst kv))) s in
  if (1 <? world_size cfg)%nat then
    let idx := shard_indices (world_size cfg) (env_RANK cfg) B in
    mapM (fun kv => let? v := index_sval (snd kv) idx in Ok (fst kv, v)) kept
  else Ok kept.

(** Lines 206-208: plain maximum of the target action values. *)
Definition per_bootstrap (pol : qpolicy) (theta_t : P) (nxt : list Obs)
  : result (list Q) :=
  mapM (fun o => row_max (snd (q_target pol theta_t o))) nxt.

Definition per_targets (pol : qpolicy) (theta_t : P) (nxt : list Obs)
  (rew ter : list Q) : result (list Q) :=
  let? boot := per_bootstrap pol theta_t nxt in
  td_targets (gamma cfg) rew ter boot.

Definition per_forward (pol : qpolicy) (s : samples) (L : learner)
  : result (list Q * forward_out) :=
  let? st := build_training_data s in
  let? obs := get_obs st "obs" in
  let? act := get_act st "actions" in
  let? nxt := get_obs st "obs_next" in
  let? rew := get_real st "rewards" in
  let? ter := get_real st "terminals" in
  let? tgt := per_targets pol (target_params L) nxt rew ter in
  let? pred := predict_q pol (online L) obs act in
  let? td := zip_with Qminus tgt pred in
  let? loss := mse pred tgt in
  Ok (td, {| loss_fn := q_loss pol obs act tgt; loss_val := loss; predict_flat := pred |}).

(** Returns [(np.abs(td_error), info)]. *)
Definition perdqn_update (pol : qpolicy) (s : samples) : SE (list Q * info) :=
  incr_iterations ;;;
  L <- get ;;
  r <- lift (per_forward pol s L) ;;
  inf <- finish_update (snd r) ;;
  ret (map Qabs (fst r), inf).

End Learners.

(** ** A concrete instance, used to evaluate the model *)

Module Concrete.

(** Observations, parameters and optimizer states are integers; an
    optimizer step moves the parameters by one and counts steps. *)
Definition opt_step (o : Z) (theta : Z) (_ : Z -> result Q) : Z * Z :=
  ((o + 1)%Z, (theta + 1)%Z).
Definition sched_step (o : Z) : Z := o.
Definition opt_lr (o : Z) : Q := 1 / inject_Z (1 + o).

Definition mk_cfg (W r : nat) (dist : bool) : config :=
  {| gamma := 9 # 10; sync_frequency := 2; distributed_training := dist;
     rank := r; world_size := W; env_RANK := r |}.

Definition cfg1 : config := mk_cfg 1 0 false.

(** Action values [o; 2 o + theta]; the arg-max is that of the values. *)
Definition values (theta o : Z) : list Q := [inject_Z o; inject_Z (2 * o + theta)].
Definition argmax2 (q : list Q) : Z :=
  match q with
  | [x; y] => if Qle_bool y x then 0%Z else 1%Z
  | _ => 0%Z
  end.

Definition pol : @qpolicy Z Z :=
  {| q_eval := fun theta o => (argmax2 (values theta o), values theta o);
     q_target := fun theta o => (argmax2 (values theta o), values theta o) |}.

Definition L0 : @learner Z Z := {| iterations := 0; online := 5%Z; target_params := 3%Z; optim := 0%Z |}.

Definition batch : @samples Z :=
  [("obs"%string, VObs [1; 2; 3; 4]%Z);
   ("actions"%string, VAct [0; 1; 0; 1]%Z);
   ("obs_next"%string, VObs [2; 3; 4; 5]%Z);
   ("rewards"%string, VReal [1; 0; 0; 2]);
   ("terminals"%string, VReal [0; 0; 1; 0]);
   ("weights"%string, VReal [1; 1; 1; 1]);
   ("batch_size"%string, @VSize Z 4)].

(** A recurrent policy over sequences; the hidden state is a counter. *)
Definition rpol : @rpolicy Z Z nat :=
  {| init_hidden := fun bs => bs;
     r_eval := fun theta obs h =>
       (map (map (fun o => argmax2 (values theta o))) obs,
        map (map (values theta)) obs, S h);
     r_target := fun theta obs h =>
       (map (map (fun o => argmax2 (values theta o))) obs,
        map (map (values theta)) obs, S h) |}.

Definition rbatch : @samples Z :=
  [("obs"%string, VObsSeq [[1; 2; 3]; [4; 5; 6]]%Z);
   ("actions"%string, VActSeq [[0; 1]; [1; 0]]%Z);
   ("rewards"%string, VRealSeq [[1; 0]; [0; 2]]);
   ("terminals"%string, VRealSeq [[0; 1]; [0; 0]]);
   ("batch_size"%string, @VSize Z 2)].

(** Small inputs for the one-dimensional and the sequence targets, a
    learner one step before a sync, and a two-worker configuration. *)
Definition nxt0 : list Z := [2; 3; 4; 5]%Z.
Definition rew0 : list Q := [1; 0; 0; 2].
Definition ter0 : list Q := [0; 0; 1; 0].
Definition rtA : list (list Z) := [[1; 0]%Z].
Definition rtQ : list (list (list Q)) := [[[2; 7]; [3; 1]]].
Definition rrew : list (list Q) := [[1; 0]].
Definition rter : list (list Q) := [[0; 1]].
Definition L1 : @learner Z Z := {| iterations := 1; online := 5%Z; target_params := 3%Z; optim := 0%Z |}.
Definition cfg2 : config := mk_cfg 2 0 true.

(** The same action values with the arg-max of the online network, or of
    both networks, replaced by the other action. *)
Definition flip (a : Z) : Z := (1 - a)%Z.
Definition pol_eval_flip : @qpolicy Z Z :=
  {| q_eval := fun theta o => (flip (argmax2 (values theta o)), values theta o);
     q_target := fun theta o => (argmax2 (values theta o), values theta o) |}.
Definition pol_flip : @qpolicy Z Z :=
  {| q_eval := fun theta o => (flip (argmax2 (values theta o)), values theta o);
     q_target := fun theta o => (flip (argmax2 (values theta o)), values theta o) |}.

(** [rpol] with another initial hidden state and another returned one. *)
Definition rpol_alt : @rpolicy Z Z nat :=
  {| init_hidden := fun bs => (7 * bs)%nat;
     r_eval := fun theta obs h =>
       (map (map (fun o => argmax2 (values theta o))) obs,
        map (map (values theta)) obs, (h + 5)%nat);
     r_target := fun theta obs h =>
       (map (map (fun o => argmax2 (values theta o))) obs,
        map (map (values theta)) obs, O) |}.

(** [batch] with other weights and a [step_choices] entry. *)
Definition batch_pt : @samples Z :=
  [("obs"%string, VObs [1; 2; 3; 4]%Z);
   ("actions"%string, VAct [0; 1; 0; 1]%Z);
   ("step_choices"%string, VAct [3; 1; 4; 1]%Z);
   ("obs_next"%string, VObs [2; 3; 4; 5]%Z);
   ("rewards"%string, VReal [1; 0; 0; 2]);
   ("terminals"%string, VReal [0; 0; 1; 0]);
   ("weights"%string, VReal [1#2; 2; 1#3; 5]);
   ("batch_size"%string, @VSize Z 4)].

(** A configuration with sync frequency zero, the second worker of two,
    and the batches without their [obs] entry. *)
Definition cfg0 : config :=
  {| gamma := 9 # 10; sync_frequency := 0; distributed_training := false;
     rank := 0; world_size := 1; env_RANK := 0 |}.
Definition cfg3 : config := mk_cfg 2 1 true.
Definition batch_noobs : @samples Z := skipn 1 batch.
Definition rbatch_noobs : @samples Z := skipn 1 rbatch.

End Concrete.

(** ** Callers and readings of the results *)

(** A caller's loop calling [learner.update] on each batch in turn: the
    calls run one after the other on the same learner, and an exception
    ends the loop. *)
Fixpoint run {Bt P OptState A : Type} (step : Bt -> @SE P OptState A) (ss : list Bt)
  : @SE P OptState unit :=
  match ss with
  | [] => ret tt
  | s :: ss' => bindSE (step s) (fun _ => run step ss')
  end.

(** Reading a decimal numeral back, digit by digit, as [int(s)] does for a
    string of digits. *)
Definition is_digit (c : Ascii.ascii) : bool :=
  (48 <=? Ascii.nat_of_ascii c)%nat && (Ascii.nat_of_ascii c <=? 57)%nat.
Definition digit_val (c : Ascii.ascii) : nat := (Ascii.nat_of_ascii c - 48)%nat.
Definition dval (s : string) : nat :=
  fold_left (fun a c => (10 * a + digit_val c)%nat) (list_ascii_of_string s) 0%nat.


(** * Properties *)

(** ** Element-wise operations *)

Section ListFacts.
Context {A B C : Type}.

Lemma zipM_spec (f : A -> B -> result C) :
  forall xs ys zs, zipM f xs ys = Ok zs ->
  length xs = length zs /\ length ys = length zs /\
  forall i z, nth_error zs i = Some z ->
    exists x y, nth_error xs i = Some x /\ nth_error ys i = Some y /\ f x y = Ok z.
Proof.
  induction xs as [|x xs IH]; intros [|y ys] zs Hz; simpl in Hz; try discriminate.
  - injection Hz as <-. repeat split; intros [|i] z Hn; discriminate.
  - destruct (f x y) as [z0|] eqn:Ef; [|discriminate]. simpl in Hz.
    destruct (zipM f xs ys) as [zs'|] eqn:Er; [|discriminate].
    injection Hz as <-. destruct (IH ys zs' Er) as (H1 & H2 & H3).
    repeat split; simpl; try congruence.
    intros [|i] z Hn; simpl in Hn.
    + injection Hn as <-. exists x, y. auto.
    + apply H3. exact Hn.
Qed.

Lemma zip_with_spec (f : A -> B -> C) xs ys zs :
  zip_with f xs ys = Ok zs ->
  length xs = length zs /\ length ys = length zs /\
  forall i z, nth_error zs i = Some z ->
    exists x y, nth_error xs i = Some x /\ nth_error ys i = Some y /\ z = f x y.
Proof.
  intros Hz. destruct (zipM_spec _ xs ys zs Hz) as (H1 & H2 & H3).
  repeat split; auto. intros i z Hn.
  destruct (H3 i z Hn) as (x & y & Hx & Hy & E). injection E as <-.
  exists x, y. auto.
Qed.

Lemma mapM_spec (f : A -> result B) :
  forall xs ys, mapM f xs = Ok ys ->
  length xs = length ys /\
  forall i y, nth_error ys i = Some y -> exists x, nth_error xs i = Some x /\ f x = Ok y.
Proof.
  induction xs as [|x xs IH]; intros ys Hy; simpl in Hy.
  - injection Hy as <-. split; auto. intros [|i] y Hn; discriminate.
  - destruct (f x) as [y0|] eqn:Ef; [|discriminate]. simpl in Hy.
    destruct (mapM f xs) as [ys'|] eqn:Er; [|discriminate].
    injection Hy as <-. destruct (IH ys' eq_refl) as (H1 & H2).
    split; simpl; [congruence|].
    intros [|i] y Hn; simpl in Hn.
    + exists x. split; [reflexivity | congruence].
    + apply H2. exact Hn.
Qed.

Lemma mapM_ext (f g : A -> result B) xs :
  (forall x, In x xs -> f x = g x) -> mapM f xs = mapM g xs.
Proof.
  induction xs as [|x xs IH]; intros Hfg; simpl; auto.
  rewrite (Hfg x (or_introl eq_refl)), IH; auto.
  intros y Hy. apply Hfg. right. exact Hy.
Qed.

End ListFacts.

(** ** The TD-target expression *)

Lemma td_targets_spec g rew ter boot ts :
  td_targets g rew ter boot = Ok ts ->
  length rew = length ts /\ length ter = length ts /\ length boot = length ts /\
  forall i t, nth_error ts i = Some t ->
    exists r d b, nth_error rew i = Some r /\ nth_error ter i = Some d /\
                  nth_error boot i = Some b /\ t = r + g * (1 - d) * b.
Proof.
  unfold td_targets. intros Ht.
  destruct (zip_with _ ter boot) as [cont|] eqn:Ec; [|discriminate]. simpl in Ht.
  destruct (zip_with_spec _ _ _ _ Ec) as (C1 & C2 & C3).
  destruct (zip_with_spec _ _ _ _ Ht) as (D1 & D2 & D3).
  repeat split; try congruence.
  intros i t Hn. destruct (D3 i t Hn) as (r & c & Hr & Hc & ->).
  destruct (C3 i c Hc) as (d & b & Hd & Hb & ->).
  exists r, d, b. repeat split; auto.
Qed.

Lemma td_targets2_spec g rew ter boot ts :
  td_targets2 g rew ter boot = Ok ts ->
  forall i row j t, nth_error ts i = Some row -> nth_error row j = Some t ->
    exists r d b, nth_error rew i = Some r /\ nth_error ter i = Some d /\
                  nth_error boot i = Some b /\
                  td_targets g r d b = Ok row /\
    exists rj dj bj, nth_error r j = Some rj /\ nth_error d j = Some dj /\
                     nth_error b j = Some bj /\ t = rj + g * (1 - dj) * bj.
Proof.
  unfold td_targets2. intros Ht i row j t Hrow Hj.
  destruct (zipM _ ter boot) as [cont|] eqn:Ec; [|discriminate]. simpl in Ht.
  destruct (zipM_spec _ _ _ _ Ht) as (_ & _ & D3).
  destruct (D3 i row Hrow) as (r & c & Hr & Hc & Erow).
  destruct (zipM_spec _ _ _ _ Ec) as (_ & _ & C3).
  destruct (C3 i c Hc) as (d & b & Hd & Hb & Ecb).
  exists r, d, b. repeat split; auto.
  - unfold td_targets. rewrite Ecb. exact Erow.
  - destruct (zip_with_spec _ _ _ _ Erow) as (_ & _ & E3).
    destruct (E3 j t Hj) as (rj & cj & Hrj & Hcj & ->).
    destruct (zip_with_spec _ _ _ _ Ecb) as (_ & _ & F3).
    destruct (F3 j cj Hcj) as (dj & bj & Hdj & Hbj & ->).
    exists rj, dj, bj. repeat split; auto.
Qed.

(** ** The targets of each variant, element by element *)

Lemma ddqn_targets_spec {Obs P : Type} (cfg : config) (pol : @qpolicy Obs P)
  theta_t nxt rew ter ts :
  ddqn_targets cfg pol theta_t nxt rew ter = Ok ts ->
  length rew = length ts /\
  forall i t, nth_error ts i = Some t ->
    exists o r d b, nth_error nxt i = Some o /\ nth_error rew i = Some r /\
      nth_error ter i = Some d /\
      onehot_select (fst (q_target pol theta_t o)) (snd (q_target pol theta_t o)) = Ok b /\
      t = r + gamma cfg * (1 - d) * b.
Proof.
  unfold ddqn_targets. intros Ht.
  destruct (ddqn_bootstrap pol theta_t nxt) as [boot|] eqn:Eb; [|discriminate].
  simpl in Ht. destruct (td_targets_spec _ _ _ _ _ Ht) as (H1 & _ & _ & H4).
  split; auto. intros i t Hn.
  destruct (H4 i t Hn) as (r & d & b & Hr & Hd & Hb & ->).
  destruct (mapM_spec _ _ _ Eb) as (_ & M2).
  destruct (M2 i b Hb) as (o & Ho & Eo).
  exists o, r, d, b. auto.
Qed.

Lemma per_targets_spec {Obs P : Type} (cfg : config) (pol : @qpolicy Obs P)
  theta_t nxt rew ter ts :
  per_targets cfg pol theta_t nxt rew ter = Ok ts ->
  length rew = length ts /\
  forall i t, nth_error ts i = Some t ->
    exists o r d b, nth_error nxt i = Some o /\ nth_error rew i = Some r /\
      nth_error ter i = Some d /\
      row_max (snd (q_target pol theta_t o)) = Ok b /\
      t = r + gamma cfg * (1 - d) * b.
Proof.
  unfold per_targets. intros Ht.
  destruct (per_bootstrap pol theta_t nxt) as [boot|] eqn:Eb; [|discriminate].
  simpl in Ht. destruct (td_targets_spec _ _ _ _ _ Ht) as (H1 & _ & _ & H4).
  split; auto. intros i t Hn.
  destruct (H4 i t Hn) as (r & d & b & Hr & Hd & Hb & ->).
  destruct (mapM_spec _ _ _ Eb) as (_ & M2).
  destruct (M2 i b Hb) as (o & Ho & Eo).
  exists o, r, d, b. auto.
Qed.

Lemma drqn_targets_spec (cfg : config) tA tQ rew ter ts :
  drqn_targets cfg tA tQ rew ter = Ok ts ->
  forall i row j t, nth_error ts i = Some row -> nth_error row j = Some t ->
    exists rowA rowQ a q rowR rowD r d b,
      nth_error tA i = Some rowA /\ nth_error rowA j = Some a /\
      nth_error tQ i = Some rowQ /\ nth_error rowQ j = Some q /\
      nth_error rew i = Some rowR /\ nth_error rowR j = Some r /\
      nth_error ter i = Some rowD /\ nth_error rowD j = Some d /\
      onehot_select a q = Ok b /\ t = r + gamma cfg * (1 - d) * b.
Proof.
  unfold drqn_targets. intros Ht i row j t Hrow Ht'.
  destruct (zipM (zipM onehot_select) tA tQ) as [boot|] eqn:Eb; [|discriminate].
  simpl in Ht.
  destruct (td_targets2_spec _ _ _ _ _ Ht i row j t Hrow Ht')
    as (rowR & rowD & brow & HR & HD & HB & _ & r & d & b & Hr & Hd & Hb & ->).
  destruct (zipM_spec _ _ _ _ Eb) as (_ & _ & Z3).
  destruct (Z3 i brow HB) as (rowA & rowQ & HA & HQ & Erow).
  destruct (zipM_spec _ _ _ _ Erow) as (_ & _ & W3).
  destruct (W3 j b Hb) as (a & q & Ha & Hq & Eab).
  exists rowA, rowQ, a, q, rowR, rowD, r, d, b. repeat split; auto.
Qed.

Lemma td_expr_live g r d b : d == 0 -> r + g * (1 - d) * b == r + g * b.
Proof. intros Hd. rewrite Hd. ring. Qed.

Lemma td_expr_terminal g r d b : d == 1 -> r + g * (1 - d) * b == r.
Proof. intros Hd. rewrite Hd. ring. Qed.

(** C1: every variant builds the target [reward + gamma * (1 - terminal) * v]
    from the value [v] it selects from the target network's output
    (the one-hot selection for DDQN and DRQN, the row maximum for PER-DQN);
    with terminal flag 0 this is [reward + gamma * v]. *)
Theorem td_target_formula {Obs P : Type} :
  (forall (cfg : config) (pol : @qpolicy Obs P) theta_t nxt rew ter ts i t,
     ddqn_targets cfg pol theta_t nxt rew ter = Ok ts -> nth_error ts i = Some t ->
     exists o r d b, nth_error nxt i = Some o /\ nth_error rew i = Some r /\
       nth_error ter i = Some d /\
       onehot_select (fst (q_target pol theta_t o)) (snd (q_target pol theta_t o)) = Ok b /\
       t == r + gamma cfg * (1 - d) * b /\ (d == 0 -> t == r + gamma cfg * b)) /\
  (forall (cfg : config) (pol : @qpolicy Obs P) theta_t nxt rew ter ts i t,
     per_targets cfg pol theta_t nxt rew ter = Ok ts -> nth_error ts i = Some t ->
     exists o r d b, nth_error nxt i = Some o /\ nth_error rew i = Some r /\
       nth_error ter i = Some d /\
       row_max (snd (q_target pol theta_t o)) = Ok b /\
       t == r + gamma cfg * (1 - d) * b /\ (d == 0 -> t == r + gamma cfg * b)) /\
  (forall (cfg : config) tA tQ rew ter ts i row j t,
     drqn_targets cfg tA tQ rew ter = Ok ts ->
     nth_error ts i = Some row -> nth_error row j = Some t ->
     exists rowA rowQ a q rowR rowD r d b,
       nth_error tA i = Some rowA /\ nth_error rowA j = Some a /\
       nth_error tQ i = Some rowQ /\ nth_error rowQ j = Some q /\
       nth_error rew i = Some rowR /\ nth_error rowR j = Some r /\
       nth_error ter i = Some rowD /\ nth_error rowD j = Some d /\
       onehot_select a q = Ok b /\
       t == r + gamma cfg * (1 - d) * b /\ (d == 0 -> t == r + gamma cfg * b)).
Proof.
  split; [|split].
  - intros cfg pol theta_t nxt rew ter ts i t Ht Hn.
    destruct (ddqn_targets_spec _ _ _ _ _ _ _ Ht) as (_ & H2).
    destruct (H2 i t Hn) as (o & r & d & b & Ho & Hr & Hd & Hb & ->).
    exists o, r, d, b. do 4 (split; [assumption|]).
    split; [reflexivity | apply td_expr_live].
  - intros cfg pol theta_t nxt rew ter ts i t Ht Hn.
    destruct (per_targets_spec _ _ _ _ _ _ _ Ht) as (_ & H2).
    destruct (H2 i t Hn) as (o & r & d & b & Ho & Hr & Hd & Hb & ->).
    exists o, r, d, b. do 4 (split; [assumption|]).
    split; [reflexivity | apply td_expr_live].
  - intros cfg tA tQ rew ter ts i row j t Ht Hrow Hn.
    destruct (drqn_targets_spec _ _ _ _ _ _ Ht i row j t Hrow Hn)
      as (rowA & rowQ & a & q & rowR & rowD & r & d & b & H1 & H2 & H3 & H4 & H5 & H6
          & H7 & H8 & H9 & ->).
    exists rowA, rowQ, a, q, rowR, rowD, r, d, b. do 9 (split; [assumption|]).
    split; [reflexivity | apply td_expr_live].
Qed.

(** C2: at a terminal element (flag 1) the target is the reward, whatever
    the target network returned; in the scenario rewards [1;0;0;2],
    terminals [0;0;1;0], gamma 0.9, target[2] is 0 and target[0] is
    1 + 0.9 times the bootstrap value of element 0. *)
Theorem terminal_target_is_reward {Obs P : Type} :
  (forall (cfg : config) (pol : @qpolicy Obs P) theta_t nxt rew ter ts i t r d,
     ddqn_targets cfg pol theta_t nxt rew ter = Ok ts -> nth_error ts i = Some t ->
     nth_error rew i = Some r -> nth_error ter i = Some d -> d == 1 -> t == r) /\
  (forall (cfg : config) (pol : @qpolicy Obs P) theta_t nxt rew ter ts i t r d,
     per_targets cfg pol theta_t nxt rew ter = Ok ts -> nth_error ts i = Some t ->
     nth_error rew i = Some r -> nth_error ter i = Some d -> d == 1 -> t == r) /\
  (forall (cfg : config) tA tQ rew ter ts i j row t rowR rowD r d,
     drqn_targets cfg tA tQ rew ter = Ok ts ->
     nth_error ts i = Some row -> nth_error row j = Some t ->
     nth_error rew i = Some rowR -> nth_error rowR j = Some r ->
     nth_error ter i = Some rowD -> nth_error rowD j = Some d -> d == 1 -> t == r) /\
  (forall (cfg : config) (pol : @qpolicy Obs P) theta_t nxt ts,
     gamma cfg == 9 # 10 ->
     ddqn_targets cfg pol theta_t nxt [1; 0; 0; 2] [0; 0; 1; 0] = Ok ts ->
     exists o b t0 t2, nth_error nxt 0 = Some o /\
       onehot_select (fst (q_target pol theta_t o)) (snd (q_target pol theta_t o)) = Ok b /\
       nth_error ts 0 = Some t0 /\ nth_error ts 2 = Some t2 /\
       t2 == 0 /\ t0 == 1 + (9 # 10) * b).
Proof.
  split; [|split; [|split]].
  - intros cfg pol theta_t nxt rew ter ts i t r d Ht Hn Hr Hd H1.
    destruct (ddqn_targets_spec _ _ _ _ _ _ _ Ht) as (_ & H2).
    destruct (H2 i t Hn) as (o & r' & d' & b & _ & Hr' & Hd' & _ & ->).
    rewrite Hr in Hr'; injection Hr' as <-. rewrite Hd in Hd'; injection Hd' as <-.
    apply td_expr_terminal. exact H1.
  - intros cfg pol theta_t nxt rew ter ts i t r d Ht Hn Hr Hd H1.
    destruct (per_targets_spec _ _ _ _ _ _ _ Ht) as (_ & H2).
    destruct (H2 i t Hn) as (o & r' & d' & b & _ & Hr' & Hd' & _ & ->).
    rewrite Hr in Hr'; injection Hr' as <-. rewrite Hd in Hd'; injection Hd' as <-.
    apply td_expr_terminal. exact H1.
  - intros cfg tA tQ rew ter ts i j row t rowR rowD r d Ht Hrow Hn HR Hr HD Hd H1.
    destruct (drqn_targets_spec _ _ _ _ _ _ Ht i row j t Hrow Hn)
      as (rowA & rowQ & a & q & rowR' & rowD' & r' & d' & b & _ & _ & _ & _ & HR'
          & Hr' & HD' & Hd' & _ & ->).
    rewrite HR in HR'; injection HR' as <-. rewrite Hr in Hr'; injection Hr' as <-.
    rewrite HD in HD'; injection HD' as <-. rewrite Hd in Hd'; injection Hd' as <-.
    apply td_expr_terminal. exact H1.
  - intros cfg pol theta_t nxt ts Hg Ht.
    destruct (ddqn_targets_spec _ _ _ _ _ _ _ Ht) as (Hlen & H2).
    simpl in Hlen.
    destruct (nth_error ts 0) as [t0|] eqn:E0;
      [|apply nth_error_None in E0; lia].
    destruct (nth_error ts 2) as [t2|] eqn:E2;
      [|apply nth_error_None in E2; lia].
    destruct (H2 0%nat t0 E0) as (o & r & d & b & Ho & Hr & Hd & Hb & ->).
    destruct (H2 2%nat t2 E2) as (o2 & r2 & d2 & b2 & _ & Hr2 & Hd2 & _ & ->).
    simpl in Hr, Hd, Hr2, Hd2.
    injection Hr as <-. injection Hd as <-. injection Hr2 as <-. injection Hd2 as <-.
    exists o, b, (1 + gamma cfg * (1 - 0) * b), (0 + gamma cfg * (1 - 1) * b2).
    do 4 (split; [assumption || reflexivity|]).
    split; [ring | rewrite Hg; ring].
Qed.

(** ** Target synchronisation *)

Section Sync.
Context {Obs P OptState H : Type}.
Variable cfg : config.
Variable opt_step : OptState -> P -> (P -> result Q) -> OptState * P.
Variable sched_step : OptState -> OptState.
Variable opt_lr : OptState -> Q.

Lemma finish_update_spec (fo : forward_out) (L : @learner P OptState) :
  let '(L', r) := finish_update cfg opt_step sched_step opt_lr fo L in
  iterations L' = iterations L /\
  (~ (sync_frequency cfg | iterations L)%Z -> target_params L' = target_params L) /\
  ((sync_frequency cfg | iterations L)%Z -> (exists v, r = Ok v) ->
   target_params L' = online L').
Proof.
  unfold finish_update, bindSE, get, put, sync_target, raise, ret.
  destruct (opt_step (optim L) (online L) (loss_fn fo)) as [o' th'].
  simpl. destruct (Z.eqb_spec (sync_frequency cfg) 0) as [E0|E0].
  - simpl. split; [reflexivity|split].
    + intros _. reflexivity.
    + intros _ [v Hv]. discriminate.
  - unfold bindSE, get, put. simpl.
    destruct (Z.eqb_spec (iterations L mod sync_frequency cfg)%Z 0%Z) as [Em|Em];
      simpl; (split; [reflexivity|split]).
    + intros Hn. exfalso. apply Hn. apply Z.mod_divide; auto.
    + intros _ _. reflexivity.
    + intros _. reflexivity.
    + intros Hd. exfalso. apply Em. apply Z.mod_divide; auto.
Qed.

End Sync.


Ltac sync_case :=
  unfold bindSE, incr_iterations, get, put, lift; simpl;
  match goal with
  | |- context [match ?fwd with Ok _ => _ | Err _ => _ end] =>
      destruct fwd as [x|e]
  end;
  [ match goal with
    | |- context [finish_update ?c ?os ?ss ?ol ?fo ?L1] =>
        pose proof (finish_update_spec c os ss ol fo L1) as Hf;
        destruct (finish_update c os ss ol fo L1) as [L' [v|e]]; simpl in Hf |- *;
        let Hi := fresh "Hi" in let Hn := fresh "Hn" in let Hy := fresh "Hy" in
        destruct Hf as (Hi & Hn & Hy);
        rewrite Hi; (split; [reflexivity | split; [exact Hn |]]);
        let Hd := fresh "Hd" in
        intros Hd; first [ intros [w Hw]; discriminate
                         | intros _; apply Hy; [exact Hd | eexists; reflexivity] ]
    end
  | simpl; split; [reflexivity | split; [intros _; reflexivity | intros _ [v Hv]; discriminate]] ].

(** C3: [update] increments the iteration counter by one; the target
    parameters are left as they were unless the new counter is a multiple
    of the sync frequency, and when it is, a call that returns leaves them
    equal to the online parameters it produced.  For all three learners. *)
Theorem target_sync_gate {Obs P OptState H : Type} (cfg : config)
  (opt_step : OptState -> P -> (P -> result Q) -> OptState * P)
  (sched_step : OptState -> OptState) (opt_lr : OptState -> Q) :
  (forall (pol : @qpolicy Obs P) s L,
     let '(L', r) := ddqn_update cfg opt_step sched_step opt_lr pol s L in
     iterations L' = (iterations L + 1)%Z /\
     (~ (sync_frequency cfg | iterations L')%Z -> target_params L' = target_params L) /\
     ((sync_frequency cfg | iterations L')%Z -> (exists v, r = Ok v) ->
      target_params L' = online L')) /\
  (forall (pol : @rpolicy Obs P H) s L,
     let '(L', r) := drqn_update cfg opt_step sched_step opt_lr pol s L in
     iterations L' = (iterations L + 1)%Z /\
     (~ (sync_frequency cfg | iterations L')%Z -> target_params L' = target_params L) /\
     ((sync_frequency cfg | iterations L')%Z -> (exists v, r = Ok v) ->
      target_params L' = online L')) /\
  (forall (pol : @qpolicy Obs P) s L,
     let '(L', r) := perdqn_update cfg opt_step sched_step opt_lr pol s L in
     iterations L' = (iterations L + 1)%Z /\
     (~ (sync_frequency cfg | iterations L')%Z -> target_params L' = target_params L) /\
     ((sync_frequency cfg | iterations L')%Z -> (exists v, r = Ok v) ->
      target_params L' = online L')).
Proof.
  split; [|split]; intros pol s L.
  - unfold ddqn_update. sync_case.
  - unfold drqn_update. sync_case.
  - unfold perdqn_update. sync_case.
Qed.

(** ** Sharding of the prioritized batch *)

Lemma seq_from_zero_app (a b : nat) : seq 0 a ++ seq a b = seq 0 (a + b).
Proof. rewrite seq_app. reflexivity. Qed.

Lemma shard_prefix (W B k : nat) :
  (k <= W - 1)%nat ->
  flat_map (fun r => shard_indices W r B) (seq 0 k) = seq 0 (k * (B / W)).
Proof.
  induction k as [|k IH]; intros Hk; [reflexivity|].
  rewrite seq_S, flat_map_app, IH by lia. simpl.
  unfold shard_indices at 1.
  destruct (Nat.ltb_spec k (W - 1)) as [_|Hc]; [|lia].
  rewrite app_nil_r.
  rewrite seq_from_zero_app. f_equal. lia.
Qed.

(** C4: the per-rank slices of ranks [0 .. W-1] concatenate, in rank
    order, to exactly [0 .. batch_size-1] (so they neither overlap nor
    leave gaps); rank [r < W-1] takes [r*(B/W) .. (r+1)*(B/W) - 1] and the
    last rank takes [(W-1)*(B/W) .. B-1]. *)
Theorem shard_partition (W B : nat) :
  (1 <= W)%nat ->
  flat_map (fun r => shard_indices W r B) (seq 0 W) = seq 0 B /\
  NoDup (flat_map (fun r => shard_indices W r B) (seq 0 W)) /\
  (forall r, (r < W - 1)%nat -> shard_indices W r B = seq (r * (B / W)) (B / W)) /\
  shard_indices W (W - 1) B = seq ((W - 1) * (B / W)) (B - (W - 1) * (B / W)).
Proof.
  intros HW.
  assert (Hall : flat_map (fun r => shard_indices W r B) (seq 0 W) = seq 0 B).
  { assert (E : seq 0 W = seq 0 (W - 1) ++ [0 + (W - 1)]%nat)
      by (rewrite <- seq_S; f_equal; lia).
    rewrite E, flat_map_app, shard_prefix by lia. simpl.
    unfold shard_indices at 1.
    destruct (Nat.ltb_spec (W - 1) (W - 1)) as [Hc|_]; [lia|].
    rewrite app_nil_r, seq_from_zero_app.
    assert (Hle : (W * (B / W) <= B)%nat) by (apply Nat.Div0.mul_div_le).
    f_equal. nia. }
  split; [exact Hall|]. split; [rewrite Hall; apply seq_NoDup|].
  split.
  - intros r Hr. unfold shard_indices.
    destruct (Nat.ltb_spec r (W - 1)); [reflexivity | lia].
  - unfold shard_indices. destruct (Nat.ltb_spec (W - 1) (W - 1)); [lia | reflexivity].
Qed.

(** ** The prioritized learner's input handling *)

Lemma lookup_filter_keep {Obs : Type} (p : string * @sval Obs -> bool) k s :
  (forall v, p (k, v) = true) -> lookup k (filter p s) = lookup k s.
Proof.
  intros Hp. induction s as [|[k' v] s IH]; simpl; [reflexivity|].
  destruct (String.eqb_spec k k') as [->|Hne].
  - rewrite Hp. simpl. rewrite String.eqb_refl. reflexivity.
  - destruct (p (k', v)); simpl; [|exact IH].
    destruct (String.eqb_spec k k'); [contradiction | exact IH].
Qed.

Lemma filter_filter_sub {A : Type} (p q : A -> bool) (l : list A) :
  (forall x, p x = true -> q x = true) -> filter p (filter q l) = filter p l.
Proof.
  intros Hpq. induction l as [|x l IH]; simpl; [reflexivity|].
  destruct (q x) eqn:Eq; simpl.
  - destruct (p x); [f_equal|]; exact IH.
  - destruct (p x) eqn:Ep; [|exact IH].
    rewrite (Hpq x Ep) in Eq. discriminate.
Qed.

Lemma build_training_data_strip {Obs : Type} (cfg : config) (s : @samples Obs) :
  build_training_data cfg s = build_training_data cfg (strip_passthrough s).
Proof.
  unfold build_training_data, get_size, get_key, strip_passthrough.
  rewrite lookup_filter_keep by reflexivity.
  rewrite filter_filter_sub; [reflexivity|].
  intros [k v]. simpl. unfold skip_key.
  destruct (String.eqb k "weights"), (String.eqb k "step_choices"),
           (String.eqb k "batch_size"); simpl; auto.
Qed.

Lemma lookup_mapM_entries {Obs : Type} (g : @sval Obs -> result (@sval Obs)) :
  forall l l', mapM (fun kv => let? v := g (snd kv) in Ok (fst kv, v)) l = Ok l' ->
  forall k v', lookup k l' = Some v' -> exists v, lookup k l = Some v /\ g v = Ok v'.
Proof.
  induction l as [|[k0 v0] l IH]; intros l' Hm k v' Hl; simpl in Hm.
  - injection Hm as <-. discriminate.
  - destruct (g v0) as [w|] eqn:Eg; [|discriminate]. simpl in Hm.
    destruct (mapM _ l) as [l''|] eqn:Er; [|discriminate].
    injection Hm as <-. simpl in Hl |- *.
    destruct (String.eqb k k0).
    + injection Hl as <-. eauto.
    + eapply IH; [reflexivity | exact Hl].
Qed.

Lemma take_rows_length {A : Type} (xs : list A) idx ys :
  take_rows xs idx = Ok ys -> length ys = length idx.
Proof. intros Ht. symmetry. apply (mapM_spec _ _ _ Ht). Qed.

Lemma index_sval_real {Obs : Type} (v : @sval Obs) idx r' :
  index_sval v idx = Ok (VReal r') -> length r' = length idx.
Proof.
  destruct v; simpl; try discriminate;
    match goal with
    | |- context [take_rows ?xs idx] =>
        destruct (take_rows xs idx) as [ys|] eqn:E; simpl; try discriminate
    end; intros Hv; injection Hv as <-; eapply take_rows_length; eauto.
Qed.

Lemma per_forward_length {Obs P OptState : Type} (cfg : config) (pol : @qpolicy Obs P)
  s (L : @learner P OptState) td fo :
  per_forward cfg pol s L = Ok (td, fo) ->
  exists st rew, build_training_data cfg s = Ok st /\ get_real st "rewards" = Ok rew /\
                 length td = length rew.
Proof.
  unfold per_forward.
  destruct (build_training_data cfg s) as [st|]; [|discriminate]. simpl.
  destruct (get_obs st "obs"); [|discriminate]. simpl.
  destruct (get_act st "actions"); [|discriminate]. simpl.
  destruct (get_obs st "obs_next"); [|discriminate]. simpl.
  destruct (get_real st "rewards") as [rew|] eqn:Er; [|discriminate]. simpl.
  destruct (get_real st "terminals"); [|discriminate]. simpl.
  destruct (per_targets cfg pol _ _ rew _) as [tgt|] eqn:Et; [|discriminate]. simpl.
  destruct (predict_q pol _ _ _) as [pred|]; [|discriminate]. simpl.
  destruct (zip_with Qminus tgt pred) as [td0|] eqn:Ez; [|discriminate]. simpl.
  destruct (mse pred tgt); [|discriminate]. simpl.
  intros Hok. injection Hok as <- _.
  exists st, rew. split; [reflexivity|]. split; [exact Er|].
  destruct (zip_with_spec _ _ _ _ Ez) as (Z1 & _).
  destruct (per_targets_spec _ _ _ _ _ _ _ Et) as (T1 & _). congruence.
Qed.

Lemma perdqn_update_ok {Obs P OptState : Type} (cfg : config) opt_step sched_step opt_lr
  (pol : @qpolicy Obs P) s (L L' : @learner P OptState) td inf :
  perdqn_update cfg opt_step sched_step opt_lr pol s L = (L', Ok (td, inf)) ->
  exists td0 fo (L1 : @learner P OptState), per_forward cfg pol s L1 = Ok (td0, fo) /\ td = map Qabs td0.
Proof.
  unfold perdqn_update, bindSE, incr_iterations, get, put, lift, ret. simpl.
  intros Hr.
  match type of Hr with context [per_forward cfg pol s ?L1] =>
    destruct (per_forward cfg pol s L1) as [[td0 fo]|] eqn:Ef; [|discriminate Hr];
    exists td0, fo, L1
  end.
  split; [exact Ef|].
  simpl in Hr. revert Hr.
  destruct (finish_update _ _ _ _ _ _) as [L2 [v|e]]; intros Hr; [|discriminate Hr].
  injection Hr as _ <- _. reflexivity.
Qed.

(** C5 (as amended): the first component the prioritized [update] returns
    holds only non-negative entries (absolute values), and it has one entry
    per row this worker trains on: with world size at most 1, one per row
    of the [rewards] array; with world size [W > 1], one per index of the
    worker's shard ([batch_size // W] rows, the remainder added on the last
    worker), not [batch_size]. *)
Theorem per_td_error_shape {Obs P OptState : Type} (cfg : config) opt_step sched_step
  opt_lr (pol : @qpolicy Obs P) s (L L' : @learner P OptState) td inf :
  perdqn_update cfg opt_step sched_step opt_lr pol s L = (L', Ok (td, inf)) ->
  Forall (fun x => 0 <= x) td /\
  exists B, get_size s "batch_size" = Ok B /\
    (if (1 <? world_size cfg)%nat
     then length td = length (shard_indices (world_size cfg) (env_RANK cfg) B)
     else exists rs, get_real s "rewards" = Ok rs /\ length td = length rs).
Proof.
  intros Hu.
  destruct (perdqn_update_ok _ _ _ _ _ _ _ _ _ _ Hu) as (td0 & fo & L1 & Ef & ->).
  split.
  { apply Forall_map. apply Forall_forall. intros x _. apply Qabs_nonneg. }
  destruct (per_forward_length _ _ _ _ _ _ Ef) as (st & rew & Hb & Hr & Hlen).
  rewrite length_map, Hlen.
  unfold build_training_data in Hb.
  destruct (get_size s "batch_size") as [B|] eqn:EB; [|discriminate]. cbn [rbind] in Hb.
  exists B. split; [reflexivity|].
  destruct (Nat.ltb 1 (world_size cfg)).
  - unfold get_real, get_key in Hr.
    destruct (lookup "rewards" st) as [v'|] eqn:El; [|discriminate]. simpl in Hr.
    destruct v'; try discriminate. injection Hr as ->.
    destruct (lookup_mapM_entries
                (fun v => index_sval v (shard_indices (world_size cfg) (env_RANK cfg) B))
                _ _ Hb _ _ El) as (v & _ & Ev).
    exact (index_sval_real _ _ _ Ev).
  - injection Hb as <-. exists rew. split; [|reflexivity].
    rewrite <- Hr. unfold get_real, get_key.
    rewrite lookup_filter_keep by reflexivity. reflexivity.
Qed.

(** C9: two sample mappings that agree on every entry except [weights] and
    [step_choices] give the same result and the same learner state: the
    TD-error array and the statistics do not depend on those entries. *)
Theorem per_ignores_passthrough {Obs P OptState : Type} (cfg : config) opt_step
  sched_step opt_lr (pol : @qpolicy Obs P) s1 s2 (L : @learner P OptState) :
  strip_passthrough s1 = strip_passthrough s2 ->
  perdqn_update cfg opt_step sched_step opt_lr pol s1 L =
  perdqn_update cfg opt_step sched_step opt_lr pol s2 L.
Proof.
  intros Hs. unfold perdqn_update, per_forward.
  rewrite (build_training_data_strip cfg s1), (build_training_data_strip cfg s2), Hs.
  reflexivity.
Qed.

(** ** One-hot selection and the row maximum *)

Lemma zip_with_ok {A B C : Type} (f : A -> B -> C) xs ys :
  length xs = length ys -> exists zs, zip_with f xs ys = Ok zs.
Proof.
  revert ys. induction xs as [|x xs IH]; intros [|y ys] Hl; simpl in Hl; try discriminate.
  - exists []. reflexivity.
  - injection Hl as Hl. destruct (IH ys Hl) as [zs Hz].
    exists (f x y :: zs). unfold zip_with in *. simpl. rewrite Hz. reflexivity.
Qed.

Lemma mask_sum_window (n : nat) :
  forall q k p,
  zip_with Qmult q
    (map (fun j => if Z.eqb (Z.of_nat j) (Z.of_nat n) then 1 else 0) (seq k (length q)))
    = Ok p ->
  qsum p == (if (k <=? n)%nat && (n <? k + length q)%nat then nth (n - k) q 0 else 0).
Proof.
  induction q as [|x q IH]; intros k p Hp.
  - injection Hp as <-. simpl.
    destruct ((k <=? n)%nat && (n <? k + 0)%nat) eqn:E; [|reflexivity].
    apply andb_true_iff in E as [E1 E2].
    apply Nat.leb_le in E1. apply Nat.ltb_lt in E2. lia.
  - simpl in Hp. unfold zip_with in Hp. simpl in Hp.
    destruct (zipM _ q _) as [p'|] eqn:Ez; [|discriminate].
    simpl in Hp. injection Hp as <-. simpl.
    rewrite (IH (S k) p' Ez).
    replace (k + S (length q))%nat with (S k + length q)%nat by lia.
    destruct (Z.eqb_spec (Z.of_nat k) (Z.of_nat n)) as [Ek|Ek];
      [apply Nat2Z.inj in Ek|assert (k <> n) by (intros ->; apply Ek; reflexivity)];
    destruct (Nat.leb_spec k n), (Nat.leb_spec (S k) n),
             (Nat.ltb_spec n (S k + length q)); cbn [andb];
      try (exfalso; lia);
      first [ replace (n - k)%nat with 0%nat by lia; simpl; ring
            | replace (n - k)%nat with (S (n - S k)) by lia; simpl; ring
            | ring ].
Qed.

(** Selecting by one-hot masking the entry at a valid index yields that entry. *)
Lemma onehot_select_entry (a : Z) (q : list Q) :
  (0 <= a < Z.of_nat (length q))%Z ->
  exists b, onehot_select a q = Ok b /\ b == nth (Z.to_nat a) q 0.
Proof.
  intros Ha. unfold onehot_select, one_hot.
  destruct (Z.leb_spec 0 a) as [_|Hc]; [|lia].
  destruct (Z.ltb_spec a (Z.of_nat (length q))) as [_|Hc]; [|lia]. simpl.
  unfold mask_sum.
  set (mask := map _ (seq 0 (length q))).
  destruct (zip_with_ok Qmult q mask) as [p Hp].
  { unfold mask. rewrite length_map, length_seq. reflexivity. }
  rewrite Hp. simpl. exists (qsum p). split; [reflexivity|].
  unfold mask in Hp. rewrite <- (Z2Nat.id a) in Hp by lia.
  rewrite (mask_sum_window (Z.to_nat a) q 0 p Hp).
  destruct (Nat.leb_spec 0 (Z.to_nat a)) as [_|Hc]; [|lia].
  destruct (Nat.ltb_spec (Z.to_nat a) (0 + length q)) as [_|Hc]; [|lia].
  simpl. rewrite Nat.sub_0_r. reflexivity.
Qed.

Lemma onehot_select_inv (a : Z) (q : list Q) b :
  onehot_select a q = Ok b ->
  (0 <= a < Z.of_nat (length q))%Z /\ b == nth (Z.to_nat a) q 0.
Proof.
  intros Hs.
  assert (Ha : (0 <= a < Z.of_nat (length q))%Z).
  { unfold onehot_select, one_hot in Hs.
    destruct (Z.leb_spec 0 a), (Z.ltb_spec a (Z.of_nat (length q)));
      simpl in Hs; try discriminate; lia. }
  split; [exact Ha|].
  destruct (onehot_select_entry a q Ha) as (b' & Hb' & Eb').
  rewrite Hs in Hb'. injection Hb' as <-. exact Eb'.
Qed.

Lemma Qmax_cases (x y : Q) : Qmax x y = x \/ Qmax x y = y.
Proof. unfold Qmax, GenericMinMax.gmax. destruct (x ?= y); auto. Qed.

Lemma fold_max_spec :
  forall vs acc, In (fold_left Qmax vs acc) (acc :: vs) /\
                 Forall (fun x => x <= fold_left Qmax vs acc) (acc :: vs).
Proof.
  induction vs as [|v vs IH]; intros acc; simpl.
  - split; [left; reflexivity|]. constructor; [apply Qle_refl | constructor].
  - destruct (IH (Qmax acc v)) as (Hin & Hall).
    inversion Hall as [|? ? Hm Hrest]; subst.
    split.
    + destruct Hin as [Heq|Hin].
      * rewrite <- Heq.
        destruct (Qmax_cases acc v) as [E|E]; rewrite E; simpl; auto.
      * right; right; exact Hin.
    + constructor; [|constructor].
      * eapply Qle_trans; [apply Q.le_max_l | exact Hm].
      * eapply Qle_trans; [apply Q.le_max_r | exact Hm].
      * exact Hrest.
Qed.

(** [targetQ.max(dim=-1).values] is the largest entry of the row. *)
Lemma row_max_spec (q : list Q) m :
  row_max q = Ok m -> In m q /\ Forall (fun x => x <= m) q.
Proof.
  destruct q as [|v vs]; simpl; intros Hm; [discriminate|].
  injection Hm as <-. apply fold_max_spec.
Qed.

(** ** Policy congruences *)

Lemma predict_q_congr {Obs P : Type} (pol1 pol2 : @qpolicy Obs P) :
  (forall theta o, snd (q_eval pol1 theta o) = snd (q_eval pol2 theta o)) ->
  forall theta obs act, predict_q pol1 theta obs act = predict_q pol2 theta obs act.
Proof.
  intros He theta obs act. unfold predict_q.
  assert (E : (fun o a => onehot_select a (snd (q_eval pol1 theta o))) =
              (fun o a => onehot_select a (snd (q_eval pol2 theta o)))).
  { extensionality o. extensionality a. rewrite He. reflexivity. }
  rewrite E. reflexivity.
Qed.

Lemma q_loss_congr {Obs P : Type} (pol1 pol2 : @qpolicy Obs P) :
  (forall theta o, snd (q_eval pol1 theta o) = snd (q_eval pol2 theta o)) ->
  forall obs act tgt, q_loss pol1 obs act tgt = q_loss pol2 obs act tgt.
Proof.
  intros He obs act tgt. unfold q_loss. extensionality theta.
  rewrite (predict_q_congr pol1 pol2 He). reflexivity.
Qed.

Lemma per_targets_congr {Obs P : Type} (cfg : config) (pol1 pol2 : @qpolicy Obs P) :
  (forall theta o, snd (q_target pol1 theta o) = snd (q_target pol2 theta o)) ->
  forall theta nxt rew ter,
  per_targets cfg pol1 theta nxt rew ter = per_targets cfg pol2 theta nxt rew ter.
Proof.
  intros Ht theta nxt rew ter. unfold per_targets, per_bootstrap.
  rewrite (mapM_ext _ (fun o => row_max (snd (q_target pol2 theta o))));
    [reflexivity|].
  intros o _. rewrite Ht. reflexivity.
Qed.

Lemma per_forward_congr {Obs P OptState : Type} (cfg : config) (pol1 pol2 : @qpolicy Obs P) :
  (forall theta o, snd (q_eval pol1 theta o) = snd (q_eval pol2 theta o)) ->
  (forall theta o, snd (q_target pol1 theta o) = snd (q_target pol2 theta o)) ->
  forall s (L : @learner P OptState), per_forward cfg pol1 s L = per_forward cfg pol2 s L.
Proof.
  intros He Ht s L. unfold per_forward.
  destruct (build_training_data cfg s) as [st|]; cbn [rbind]; [|reflexivity].
  destruct (get_obs st "obs") as [obs|]; cbn [rbind]; [|reflexivity].
  destruct (get_act st "actions") as [act|]; cbn [rbind]; [|reflexivity].
  destruct (get_obs st "obs_next") as [nxt|]; cbn [rbind]; [|reflexivity].
  destruct (get_real st "rewards") as [rew|]; cbn [rbind]; [|reflexivity].
  destruct (get_real st "terminals") as [ter|]; cbn [rbind]; [|reflexivity].
  rewrite (per_targets_congr cfg pol1 pol2 Ht).
  destruct (per_targets cfg pol2 _ _ _ _) as [tgt|]; cbn [rbind]; [|reflexivity].
  rewrite (predict_q_congr pol1 pol2 He), (q_loss_congr pol1 pol2 He).
  reflexivity.
Qed.

Lemma ddqn_forward_congr {Obs P OptState : Type} (cfg : config) (pol1 pol2 : @qpolicy Obs P) :
  (forall theta o, snd (q_eval pol1 theta o) = snd (q_eval pol2 theta o)) ->
  (forall theta o, q_target pol1 theta o = q_target pol2 theta o) ->
  forall s (L : @learner P OptState), ddqn_forward cfg pol1 s L = ddqn_forward cfg pol2 s L.
Proof.
  intros He Ht s L. unfold ddqn_forward, ddqn_targets, ddqn_bootstrap.
  destruct (get_obs s "obs") as [obs|]; cbn [rbind]; [|reflexivity].
  destruct (get_act s "actions") as [act|]; cbn [rbind]; [|reflexivity].
  destruct (get_obs s "obs_next") as [nxt|]; cbn [rbind]; [|reflexivity].
  destruct (get_real s "rewards") as [rew|]; cbn [rbind]; [|reflexivity].
  destruct (get_real s "terminals") as [ter|]; cbn [rbind]; [|reflexivity].
  rewrite (mapM_ext (fun o => onehot_select (fst (q_target pol1 (target_params L) o))
                                            (snd (q_target pol1 (target_params L) o)))
                    (fun o => onehot_select (fst (q_target pol2 (target_params L) o))
                                            (snd (q_target pol2 (target_params L) o))))
    by (intros o _; rewrite Ht; reflexivity).
  match goal with |- rbind ?m _ = rbind ?m _ => destruct m as [tgt|]; cbn [rbind]; [|reflexivity] end.
  rewrite (predict_q_congr pol1 pol2 He), (q_loss_congr pol1 pol2 He).
  reflexivity.
Qed.

Lemma ddqn_forward_inv {Obs P OptState : Type} (cfg : config) (pol : @qpolicy Obs P)
  s (L : @learner P OptState) fo :
  ddqn_forward cfg pol s L = Ok fo ->
  exists obs act nxt rew ter ts,
    get_obs s "obs" = Ok obs /\ get_act s "actions" = Ok act /\
    get_obs s "obs_next" = Ok nxt /\ get_real s "rewards" = Ok rew /\
    get_real s "terminals" = Ok ter /\
    ddqn_targets cfg pol (target_params L) nxt rew ter = Ok ts /\
    loss_fn fo = q_loss pol obs act ts.
Proof.
  unfold ddqn_forward.
  destruct (get_obs s "obs") as [obs|] eqn:E1; cbn [rbind]; [|discriminate].
  destruct (get_act s "actions") as [act|] eqn:E2; cbn [rbind]; [|discriminate].
  destruct (get_obs s "obs_next") as [nxt|] eqn:E3; cbn [rbind]; [|discriminate].
  destruct (get_real s "rewards") as [rew|] eqn:E4; cbn [rbind]; [|discriminate].
  destruct (get_real s "terminals") as [ter|] eqn:E5; cbn [rbind]; [|discriminate].
  destruct (ddqn_targets cfg pol _ nxt rew ter) as [ts|] eqn:E6; cbn [rbind]; [|discriminate].
  destruct (predict_q pol (online L) obs act); cbn [rbind]; [|discriminate].
  destruct (mse _ ts); cbn [rbind]; [|discriminate].
  intros Hf. injection Hf as <-.
  exists obs, act, nxt, rew, ter, ts. repeat (split; [reflexivity || assumption|]).
  reflexivity.
Qed.

(** C10: when the target network's arg-max is the index of a largest entry
    of its action values, the Double-DQN bootstrap (one-hot of the arg-max
    times the values, summed) equals the prioritized variant's bootstrap
    (the row maximum), element by element. *)
Theorem ddqn_bootstrap_matches_max {Obs P : Type} (pol : @qpolicy Obs P) theta_t nxt :
  Forall (fun o =>
            let a := fst (q_target pol theta_t o) in
            let q := snd (q_target pol theta_t o) in
            (0 <= a < Z.of_nat (length q))%Z /\
            Forall (fun x => x <= nth (Z.to_nat a) q 0) q) nxt ->
  exists b1 b2, ddqn_bootstrap pol theta_t nxt = Ok b1 /\
                per_bootstrap pol theta_t nxt = Ok b2 /\ Forall2 Qeq b1 b2.
Proof.
  unfold ddqn_bootstrap, per_bootstrap.
  induction nxt as [|o nxt IH]; intros Hc.
  - exists [], []. repeat split; constructor.
  - inversion Hc as [|? ? [Ha Hmax] Hrest]; subst.
    destruct (IH Hrest) as (b1 & b2 & E1 & E2 & F).
    simpl. rewrite E1, E2.
    set (a := fst (q_target pol theta_t o)) in *.
    set (q := snd (q_target pol theta_t o)) in *.
    destruct (onehot_select_entry a q Ha) as (b & Eb & Hb).
    destruct q as [|v vs] eqn:Eq; [simpl in Ha; lia|].
    rewrite Eb. simpl.
    destruct (row_max_spec (v :: vs) _ eq_refl) as (Hin & Hall).
    exists (b :: b1), (fold_left Qmax vs v :: b2).
    split; [reflexivity|]. split; [reflexivity|].
    constructor; [|exact F].
    rewrite Hb. apply Qle_antisym.
    + rewrite Forall_forall in Hall. apply Hall. apply nth_In. lia.
    + rewrite Forall_forall in Hmax. apply Hmax. exact Hin.
Qed.

(** C6: in the Double-DQN update the bootstrap value of element [i] is
    taken from the target network (target parameters) on the [i]-th next
    observation: its own arg-max, turned into a one-hot mask over its own
    action values and summed, which is the value at that arg-max; the
    targets that enter the loss are built from [obs_next] and the target
    parameters; and the online network's arg-max plays no part. *)
Theorem ddqn_selects_from_target {Obs P OptState : Type} :
  (forall (cfg : config) (pol : @qpolicy Obs P) theta_t nxt rew ter ts i t,
     ddqn_targets cfg pol theta_t nxt rew ter = Ok ts -> nth_error ts i = Some t ->
     exists o r d b, nth_error nxt i = Some o /\ nth_error rew i = Some r /\
       nth_error ter i = Some d /\
       one_hot (fst (q_target pol theta_t o)) (length (snd (q_target pol theta_t o)))
         = Ok (map (fun j => if Z.eqb (Z.of_nat j) (fst (q_target pol theta_t o))
                             then 1 else 0)
                   (seq 0 (length (snd (q_target pol theta_t o))))) /\
       onehot_select (fst (q_target pol theta_t o)) (snd (q_target pol theta_t o)) = Ok b /\
       b == nth (Z.to_nat (fst (q_target pol theta_t o))) (snd (q_target pol theta_t o)) 0 /\
       t == r + gamma cfg * (1 - d) * b) /\
  (forall (cfg : config) (pol : @qpolicy Obs P) s (L : @learner P OptState) fo,
     ddqn_forward cfg pol s L = Ok fo ->
     exists obs act nxt rew ter ts,
       get_obs s "obs" = Ok obs /\ get_act s "actions" = Ok act /\
       get_obs s "obs_next" = Ok nxt /\ get_real s "rewards" = Ok rew /\
       get_real s "terminals" = Ok ter /\
       ddqn_targets cfg pol (target_params L) nxt rew ter = Ok ts /\
       loss_fn fo = q_loss pol obs act ts) /\
  (forall (cfg : config) opt_step sched_step opt_lr (pol1 pol2 : @qpolicy Obs P) s
          (L : @learner P OptState),
     (forall theta o, snd (q_eval pol1 theta o) = snd (q_eval pol2 theta o)) ->
     (forall theta o, q_target pol1 theta o = q_target pol2 theta o) ->
     ddqn_update cfg opt_step sched_step opt_lr pol1 s L =
     ddqn_update cfg opt_step sched_step opt_lr pol2 s L).
Proof.
  split; [|split].
  - intros cfg pol theta_t nxt rew ter ts i t Ht Hn.
    destruct (ddqn_targets_spec _ _ _ _ _ _ _ Ht) as (_ & H2).
    destruct (H2 i t Hn) as (o & r & d & b & Ho & Hr & Hd & Hb & ->).
    destruct (onehot_select_inv _ _ _ Hb) as (Ha & Eb).
    exists o, r, d, b. do 3 (split; [assumption|]).
    split.
    { unfold one_hot. destruct (Z.leb_spec 0 (fst (q_target pol theta_t o))); [|lia].
      destruct (Z.ltb_spec (fst (q_target pol theta_t o))
                           (Z.of_nat (length (snd (q_target pol theta_t o))))); [|lia].
      reflexivity. }
    split; [exact Hb|]. split; [exact Eb | reflexivity].
  - intros cfg pol s L fo Hf. exact (ddqn_forward_inv _ _ _ _ _ Hf).
  - intros cfg opt_step sched_step opt_lr pol1 pol2 s L He Ht.
    unfold ddqn_update, bindSE, incr_iterations, get, put, lift. simpl.
    rewrite (ddqn_forward_congr cfg pol1 pol2 He Ht). reflexivity.
Qed.

Lemma per_forward_inv {Obs P OptState : Type} (cfg : config) (pol : @qpolicy Obs P)
  s (L : @learner P OptState) td fo :
  per_forward cfg pol s L = Ok (td, fo) ->
  exists st obs act nxt rew ter ts,
    build_training_data cfg s = Ok st /\
    get_obs st "obs" = Ok obs /\ get_act st "actions" = Ok act /\
    get_obs st "obs_next" = Ok nxt /\ get_real st "rewards" = Ok rew /\
    get_real st "terminals" = Ok ter /\
    per_targets cfg pol (target_params L) nxt rew ter = Ok ts /\
    loss_fn fo = q_loss pol obs act ts.
Proof.
  unfold per_forward.
  destruct (build_training_data cfg s) as [st|] eqn:E0; cbn [rbind]; [|discriminate].
  destruct (get_obs st "obs") as [obs|] eqn:E1; cbn [rbind]; [|discriminate].
  destruct (get_act st "actions") as [act|] eqn:E2; cbn [rbind]; [|discriminate].
  destruct (get_obs st "obs_next") as [nxt|] eqn:E3; cbn [rbind]; [|discriminate].
  destruct (get_real st "rewards") as [rew|] eqn:E4; cbn [rbind]; [|discriminate].
  destruct (get_real st "terminals") as [ter|] eqn:E5; cbn [rbind]; [|discriminate].
  destruct (per_targets cfg pol _ nxt rew ter) as [ts|] eqn:E6; cbn [rbind]; [|discriminate].
  destruct (predict_q pol (online L) obs act); cbn [rbind]; [|discriminate].
  destruct (zip_with Qminus ts _); cbn [rbind]; [|discriminate].
  destruct (mse _ ts); cbn [rbind]; [|discriminate].
  intros Hf. injection Hf as _ <-.
  exists st, obs, act, nxt, rew, ter, ts. repeat (split; [reflexivity || assumption|]).
  reflexivity.
Qed.

(** C7: in the prioritized update the bootstrap value of element [i] is
    the largest of the target network's action values on the [i]-th next
    observation (an entry of the row, no smaller than any other); the
    targets that enter the loss are built from [obs_next] and the target
    parameters; and neither network's arg-max output plays any part, so no
    one-hot action selection is involved. *)
Theorem per_plain_max {Obs P OptState : Type} :
  (forall (cfg : config) (pol : @qpolicy Obs P) theta_t nxt rew ter ts i t,
     per_targets cfg pol theta_t nxt rew ter = Ok ts -> nth_error ts i = Some t ->
     exists o r d m, nth_error nxt i = Some o /\ nth_error rew i = Some r /\
       nth_error ter i = Some d /\
       row_max (snd (q_target pol theta_t o)) = Ok m /\
       In m (snd (q_target pol theta_t o)) /\
       Forall (fun x => x <= m) (snd (q_target pol theta_t o)) /\
       t == r + gamma cfg * (1 - d) * m) /\
  (forall (cfg : config) (pol : @qpolicy Obs P) s (L : @learner P OptState) td fo,
     per_forward cfg pol s L = Ok (td, fo) ->
     exists st obs act nxt rew ter ts,
       build_training_data cfg s = Ok st /\
       get_obs st "obs" = Ok obs /\ get_act st "actions" = Ok act /\
       get_obs st "obs_next" = Ok nxt /\ get_real st "rewards" = Ok rew /\
       get_real st "terminals" = Ok ter /\
       per_targets cfg pol (target_params L) nxt rew ter = Ok ts /\
       loss_fn fo = q_loss pol obs act ts) /\
  (forall (cfg : config) opt_step sched_step opt_lr (pol1 pol2 : @qpolicy Obs P) s
          (L : @learner P OptState),
     (forall theta o, snd (q_eval pol1 theta o) = snd (q_eval pol2 theta o)) ->
     (forall theta o, snd (q_target pol1 theta o) = snd (q_target pol2 theta o)) ->
     perdqn_update cfg opt_step sched_step opt_lr pol1 s L =
     perdqn_update cfg opt_step sched_step opt_lr pol2 s L).
Proof.
  split; [|split].
  - intros cfg pol theta_t nxt rew ter ts i t Ht Hn.
    destruct (per_targets_spec _ _ _ _ _ _ _ Ht) as (_ & H2).
    destruct (H2 i t Hn) as (o & r & d & m & Ho & Hr & Hd & Hm & ->).
    destruct (row_max_spec _ _ Hm) as (Hin & Hall).
    exists o, r, d, m. do 6 (split; [assumption|]). reflexivity.
  - intros cfg pol s L td fo Hf. exact (per_forward_inv _ _ _ _ _ _ Hf).
  - intros cfg opt_step sched_step opt_lr pol1 pol2 s L He Ht.
    unfold perdqn_update, bindSE, incr_iterations, get, put, lift. simpl.
    rewrite (per_forward_congr cfg pol1 pol2 He Ht). reflexivity.
Qed.

Lemma slice_facts {A : Type} (row : list A) (T : nat) :
  length row = S T ->
  length (slice_cur row) = T /\ length (slice_next row) = T /\
  (forall i, (i < T)%nat ->
     nth_error (slice_cur row) i = nth_error row i /\
     nth_error (slice_next row) i = nth_error row (S i)).
Proof.
  intros Hl. unfold slice_cur, slice_next.
  rewrite Hl. replace (S T - 1)%nat with T by lia.
  split; [rewrite length_firstn; lia|].
  split; [rewrite length_skipn; lia|].
  intros i Hi. split.
  - rewrite nth_error_firstn. destruct (Nat.ltb_spec i T); [reflexivity|lia].
  - rewrite nth_error_skipn. reflexivity.
Qed.

Lemma drqn_forward_congr {Obs P OptState H : Type} (cfg : config)
  (pol1 pol2 : @rpolicy Obs P H) s (L : @learner P OptState) obs bs :
  get_obs_seq s "obs" = Ok obs -> get_size s "batch_size" = Ok bs ->
  (forall theta, fst (r_eval pol1 theta (map slice_cur obs) (init_hidden pol1 bs)) =
                 fst (r_eval pol2 theta (map slice_cur obs) (init_hidden pol2 bs))) ->
  (forall theta, fst (r_target pol1 theta (map slice_next obs) (init_hidden pol1 bs)) =
                 fst (r_target pol2 theta (map slice_next obs) (init_hidden pol2 bs))) ->
  drqn_forward cfg pol1 s L = drqn_forward cfg pol2 s L.
Proof.
  intros Ho Hb He Ht. unfold drqn_forward. rewrite Ho, Hb. cbn [rbind].
  destruct (get_act_seq s "actions"); cbn [rbind]; [|reflexivity].
  destruct (get_real_seq s "rewards"); cbn [rbind]; [|reflexivity].
  destruct (get_real_seq s "terminals"); cbn [rbind]; [|reflexivity].
  assert (Hf : (fun theta => snd (fst (r_eval pol1 theta (map slice_cur obs) (init_hidden pol1 bs))))
             = (fun theta => snd (fst (r_eval pol2 theta (map slice_cur obs) (init_hidden pol2 bs))))).
  { apply functional_extensionality. intros theta. rewrite He. reflexivity. }
  rewrite Hf, (Ht (target_params L)), (He (online L)). reflexivity.
Qed.

(** C8: in the recurrent update, for observation sequences of length
    [T+1] the online network sees positions [0..T-1] and the target network
    positions [1..T] of the same sequence; both forward passes get the
    state [init_hidden(batch_size)] and nothing else as hidden state, and
    the hidden states they return are discarded: two policies whose
    networks agree on those inputs up to the returned hidden state give
    the same update, and the learner state holds no hidden state. *)
Theorem drqn_fresh_hidden_slices {Obs P OptState H : Type} :
  (forall (row : list Obs) (T : nat), length row = S T ->
     length (slice_cur row) = T /\ length (slice_next row) = T /\
     (forall i, (i < T)%nat ->
        nth_error (slice_cur row) i = nth_error row i /\
        nth_error (slice_next row) i = nth_error row (S i))) /\
  (forall (cfg : config) opt_step sched_step opt_lr (pol1 pol2 : @rpolicy Obs P H) s
          (L : @learner P OptState) obs bs,
     get_obs_seq s "obs" = Ok obs -> get_size s "batch_size" = Ok bs ->
     (forall theta, fst (r_eval pol1 theta (map slice_cur obs) (init_hidden pol1 bs)) =
                    fst (r_eval pol2 theta (map slice_cur obs) (init_hidden pol2 bs))) ->
     (forall theta, fst (r_target pol1 theta (map slice_next obs) (init_hidden pol1 bs)) =
                    fst (r_target pol2 theta (map slice_next obs) (init_hidden pol2 bs))) ->
     drqn_update cfg opt_step sched_step opt_lr pol1 s L =
     drqn_update cfg opt_step sched_step opt_lr pol2 s L).
Proof.
  split.
  - intros row T Hl. exact (slice_facts row T Hl).
  - intros cfg opt_step sched_step opt_lr pol1 pol2 s L obs bs Ho Hb He Ht.
    unfold drqn_update, bindSE, incr_iterations, get, put, lift. simpl.
    rewrite (drqn_forward_congr cfg pol1 pol2 s _ obs bs Ho Hb He Ht). reflexivity.
Qed.

(** * The theorems at concrete inputs *)

Module Witnesses.
Import Concrete.

Lemma td_target_formula_witness :
  (exists ts t, ddqn_targets cfg1 pol 3%Z nxt0 rew0 ter0 = Ok ts /\ nth_error ts 0 = Some t /\
     exists o r d b, nth_error nxt0 0 = Some o /\ nth_error rew0 0 = Some r /\
       nth_error ter0 0 = Some d /\
       onehot_select (fst (q_target pol 3%Z o)) (snd (q_target pol 3%Z o)) = Ok b /\
       t == r + gamma cfg1 * (1 - d) * b /\ (d == 0 -> t == r + gamma cfg1 * b)) /\
  (exists ts t, per_targets cfg1 pol 3%Z nxt0 rew0 ter0 = Ok ts /\ nth_error ts 1 = Some t /\
     exists o r d b, nth_error nxt0 1 = Some o /\ nth_error rew0 1 = Some r /\
       nth_error ter0 1 = Some d /\
       row_max (snd (q_target pol 3%Z o)) = Ok b /\
       t == r + gamma cfg1 * (1 - d) * b /\ (d == 0 -> t == r + gamma cfg1 * b)) /\
  (exists ts row t, drqn_targets cfg1 rtA rtQ rrew rter = Ok ts /\
     nth_error ts 0 = Some row /\ nth_error row 0 = Some t /\
     exists rowA rowQ a q rowR rowD r d b,
       nth_error rtA 0 = Some rowA /\ nth_error rowA 0 = Some a /\
       nth_error rtQ 0 = Some rowQ /\ nth_error rowQ 0 = Some q /\
       nth_error rrew 0 = Some rowR /\ nth_error rowR 0 = Some r /\
       nth_error rter 0 = Some rowD /\ nth_error rowD 0 = Some d /\
       onehot_select a q = Ok b /\
       t == r + gamma cfg1 * (1 - d) * b /\ (d == 0 -> t == r + gamma cfg1 * b)).
Proof.
  split; [|split].
  - destruct (ddqn_targets cfg1 pol 3%Z nxt0 rew0 ter0) as [ts|e] eqn:E;
      [|vm_compute in E; discriminate E].
    pose proof E as E'. vm_compute in E'. injection E' as <-.
    eexists _, _. split; [exact E|]. split; [reflexivity|].
    exact (proj1 (@td_target_formula Z Z) _ _ _ _ _ _ _ 0%nat _ E eq_refl).
  - destruct (per_targets cfg1 pol 3%Z nxt0 rew0 ter0) as [ts|e] eqn:E;
      [|vm_compute in E; discriminate E].
    pose proof E as E'. vm_compute in E'. injection E' as <-.
    eexists _, _. split; [exact E|]. split; [reflexivity|].
    exact (proj1 (proj2 (@td_target_formula Z Z)) _ _ _ _ _ _ _ 1%nat _ E eq_refl).
  - destruct (drqn_targets cfg1 rtA rtQ rrew rter) as [ts|e] eqn:E;
      [|vm_compute in E; discriminate E].
    pose proof E as E'. vm_compute in E'. injection E' as <-.
    eexists _, _, _. split; [exact E|]. split; [reflexivity|]. split; [reflexivity|].
    exact (proj2 (proj2 (@td_target_formula Z Z)) _ _ _ _ _ _ 0%nat _ 0%nat _ E eq_refl eq_refl).
Defined.

Lemma terminal_target_is_reward_witness :
  (exists ts t, ddqn_targets cfg1 pol 3%Z nxt0 rew0 ter0 = Ok ts /\
     nth_error ts 2 = Some t /\ t == 0) /\
  (exists ts t, per_targets cfg1 pol 3%Z nxt0 rew0 ter0 = Ok ts /\
     nth_error ts 2 = Some t /\ t == 0) /\
  (exists ts row t, drqn_targets cfg1 rtA rtQ rrew rter = Ok ts /\
     nth_error ts 0 = Some row /\ nth_error row 1 = Some t /\ t == 0) /\
  (gamma cfg1 == 9 # 10 /\
   exists ts, ddqn_targets cfg1 pol 3%Z nxt0 [1; 0; 0; 2] [0; 0; 1; 0] = Ok ts /\
     exists o b t0 t2, nth_error nxt0 0 = Some o /\
       onehot_select (fst (q_target pol 3%Z o)) (snd (q_target pol 3%Z o)) = Ok b /\
       nth_error ts 0 = Some t0 /\ nth_error ts 2 = Some t2 /\
       t2 == 0 /\ t0 == 1 + (9 # 10) * b).
Proof.
  split; [|split; [|split]].
  - destruct (ddqn_targets cfg1 pol 3%Z nxt0 rew0 ter0) as [ts|e] eqn:E;
      [|vm_compute in E; discriminate E].
    pose proof E as E'. vm_compute in E'. injection E' as <-.
    eexists _, _. split; [exact E|]. split; [reflexivity|].
    exact (proj1 (@terminal_target_is_reward Z Z) _ _ _ _ _ _ _ 2%nat _ 0 1
             E eq_refl eq_refl eq_refl (Qeq_refl 1)).
  - destruct (per_targets cfg1 pol 3%Z nxt0 rew0 ter0) as [ts|e] eqn:E;
      [|vm_compute in E; discriminate E].
    pose proof E as E'. vm_compute in E'. injection E' as <-.
    eexists _, _. split; [exact E|]. split; [reflexivity|].
    exact (proj1 (proj2 (@terminal_target_is_reward Z Z)) _ _ _ _ _ _ _ 2%nat _ 0 1
             E eq_refl eq_refl eq_refl (Qeq_refl 1)).
  - destruct (drqn_targets cfg1 rtA rtQ rrew rter) as [ts|e] eqn:E;
      [|vm_compute in E; discriminate E].
    pose proof E as E'. vm_compute in E'. injection E' as <-.
    eexists _, _, _. split; [exact E|]. split; [reflexivity|]. split; [reflexivity|].
    exact (proj1 (proj2 (proj2 (@terminal_target_is_reward Z Z))) _ _ _ _ _ _ 0%nat 1%nat
             _ _ _ _ 0 1 E eq_refl eq_refl eq_refl eq_refl eq_refl eq_refl (Qeq_refl 1)).
  - split; [reflexivity|].
    destruct (ddqn_targets cfg1 pol 3%Z nxt0 [1; 0; 0; 2] [0; 0; 1; 0]) as [ts|e] eqn:E;
      [|vm_compute in E; discriminate E].
    exists ts. split; [reflexivity|].
    exact (proj2 (proj2 (proj2 (@terminal_target_is_reward Z Z))) cfg1 pol 3%Z nxt0 ts
             (Qeq_refl _) E).
Defined.

Lemma target_sync_gate_witness :
  (let '(L', r) := ddqn_update cfg1 opt_step sched_step opt_lr pol batch L1 in
   iterations L' = 2%Z /\ (sync_frequency cfg1 | iterations L')%Z /\ (exists v, r = Ok v) /\
   target_params L' = online L') /\
  (let '(L', r) := drqn_update cfg1 opt_step sched_step opt_lr rpol rbatch L0 in
   iterations L' = 1%Z /\ ~ (sync_frequency cfg1 | iterations L')%Z /\
   target_params L' = target_params L0) /\
  (let '(L', r) := perdqn_update cfg2 opt_step sched_step opt_lr pol batch L1 in
   iterations L' = 2%Z /\ (sync_frequency cfg2 | iterations L')%Z /\ (exists v, r = Ok v) /\
   target_params L' = online L').
Proof.
  pose proof (@target_sync_gate Z Z Z nat cfg1 opt_step sched_step opt_lr) as (G1 & G2 & _).
  pose proof (@target_sync_gate Z Z Z nat cfg2 opt_step sched_step opt_lr) as (_ & _ & G3).
  split; [|split].
  - specialize (G1 pol batch L1). revert G1.
    destruct (ddqn_update cfg1 opt_step sched_step opt_lr pol batch L1) as [L' r] eqn:E.
    intros (Gi & _ & Gs).
    assert (Hi : iterations L' = 2%Z) by (rewrite Gi; reflexivity).
    assert (Hv : exists v, r = Ok v).
    { pose proof E as E'. vm_compute in E'. injection E' as _ <-. eexists; reflexivity. }
    assert (Hd : (sync_frequency cfg1 | iterations L')%Z) by (rewrite Hi; exists 1%Z; reflexivity).
    split; [exact Hi|]. split; [exact Hd|]. split; [exact Hv|]. exact (Gs Hd Hv).
  - specialize (G2 rpol rbatch L0). revert G2.
    destruct (drqn_update cfg1 opt_step sched_step opt_lr rpol rbatch L0) as [L' r] eqn:E.
    intros (Gi & Gn & _).
    assert (Hi : iterations L' = 1%Z) by (rewrite Gi; reflexivity).
    assert (Hn : ~ (sync_frequency cfg1 | iterations L')%Z).
    { rewrite Hi. simpl. intros [k Hk]. lia. }
    split; [exact Hi|]. split; [exact Hn|]. exact (Gn Hn).
  - specialize (G3 pol batch L1). revert G3.
    destruct (perdqn_update cfg2 opt_step sched_step opt_lr pol batch L1) as [L' r] eqn:E.
    intros (Gi & _ & Gs).
    assert (Hi : iterations L' = 2%Z) by (rewrite Gi; reflexivity).
    assert (Hv : exists v, r = Ok v).
    { pose proof E as E'. vm_compute in E'. injection E' as _ <-. eexists; reflexivity. }
    assert (Hd : (sync_frequency cfg2 | iterations L')%Z) by (rewrite Hi; exists 1%Z; reflexivity).
    split; [exact Hi|]. split; [exact Hd|]. split; [exact Hv|]. exact (Gs Hd Hv).
Defined.

Lemma shard_partition_witness :
  (1 <= 3)%nat /\
  flat_map (fun r => shard_indices 3 r 7) (seq 0 3) = seq 0 7 /\
  NoDup (flat_map (fun r => shard_indices 3 r 7) (seq 0 3)) /\
  (forall r, (r < 3 - 1)%nat -> shard_indices 3 r 7 = seq (r * (7 / 3)) (7 / 3)) /\
  shard_indices 3 (3 - 1) 7 = seq ((3 - 1) * (7 / 3)) (7 - (3 - 1) * (7 / 3)).
Proof.
  assert (HW : (1 <= 3)%nat) by lia.
  split; [exact HW|]. exact (shard_partition 3 7 HW).
Defined.

Lemma per_td_error_shape_witness :
  exists L' td inf,
    perdqn_update cfg1 opt_step sched_step opt_lr pol batch L0 = (L', Ok (td, inf)) /\
    Forall (fun x => 0 <= x) td /\
    exists B, get_size batch "batch_size" = Ok B /\
      (if (1 <? world_size cfg1)%nat
       then length td = length (shard_indices (world_size cfg1) (env_RANK cfg1) B)
       else exists rs, get_real batch "rewards" = Ok rs /\ length td = length rs).
Proof.
  destruct (perdqn_update cfg1 opt_step sched_step opt_lr pol batch L0)
    as [L' [[td inf]|e]] eqn:E; [|vm_compute in E; discriminate E].
  exists L', td, inf. split; [reflexivity|].
  exact (per_td_error_shape cfg1 opt_step sched_step opt_lr pol batch L0 L' td inf E).
Defined.

(** With two workers the TD-error array of rank 0 on a batch of four has
    two entries, not four. *)
Lemma per_td_error_not_batch_size :
  exists L' td inf,
    perdqn_update cfg2 opt_step sched_step opt_lr pol batch L0 = (L', Ok (td, inf)) /\
    get_size batch "batch_size" = Ok 4%nat /\ length td = 2%nat /\ length td <> 4%nat.
Proof.
  destruct (perdqn_update cfg2 opt_step sched_step opt_lr pol batch L0)
    as [L' [[td inf]|e]] eqn:E; [|vm_compute in E; discriminate E].
  exists L', td, inf. split; [reflexivity|]. split; [reflexivity|].
  vm_compute in E. injection E as _ <- _. split; [reflexivity|]. discriminate.
Defined.

Lemma ddqn_selects_from_target_witness :
  (exists ts t, ddqn_targets cfg1 pol 3%Z nxt0 rew0 ter0 = Ok ts /\ nth_error ts 3 = Some t /\
     exists o r d b, nth_error nxt0 3 = Some o /\ nth_error rew0 3 = Some r /\
       nth_error ter0 3 = Some d /\
       one_hot (fst (q_target pol 3%Z o)) (length (snd (q_target pol 3%Z o)))
         = Ok (map (fun j => if Z.eqb (Z.of_nat j) (fst (q_target pol 3%Z o)) then 1 else 0)
                   (seq 0 (length (snd (q_target pol 3%Z o))))) /\
       onehot_select (fst (q_target pol 3%Z o)) (snd (q_target pol 3%Z o)) = Ok b /\
       b == nth (Z.to_nat (fst (q_target pol 3%Z o))) (snd (q_target pol 3%Z o)) 0 /\
       t == r + gamma cfg1 * (1 - d) * b) /\
  (exists fo, ddqn_forward cfg1 pol batch L0 = Ok fo /\
     exists obs act nxt rew ter ts,
       get_obs batch "obs" = Ok obs /\ get_act batch "actions" = Ok act /\
       get_obs batch "obs_next" = Ok nxt /\ get_real batch "rewards" = Ok rew /\
       get_real batch "terminals" = Ok ter /\
       ddqn_targets cfg1 pol (target_params L0) nxt rew ter = Ok ts /\
       loss_fn fo = q_loss pol obs act ts) /\
  ((forall theta o, snd (q_eval pol theta o) = snd (q_eval pol_eval_flip theta o)) /\
   (forall theta o, q_target pol theta o = q_target pol_eval_flip theta o) /\
   ddqn_update cfg1 opt_step sched_step opt_lr pol batch L0 =
   ddqn_update cfg1 opt_step sched_step opt_lr pol_eval_flip batch L0).
Proof.
  split; [|split].
  - destruct (ddqn_targets cfg1 pol 3%Z nxt0 rew0 ter0) as [ts|e] eqn:E;
      [|vm_compute in E; discriminate E].
    pose proof E as E'. vm_compute in E'. injection E' as <-.
    eexists _, _. split; [exact E|]. split; [reflexivity|].
    exact (proj1 (@ddqn_selects_from_target Z Z Z) _ _ _ _ _ _ _ 3%nat _ E eq_refl).
  - destruct (ddqn_forward cfg1 pol batch L0) as [fo|e] eqn:E;
      [|vm_compute in E; discriminate E].
    exists fo. split; [reflexivity|].
    exact (proj1 (proj2 (@ddqn_selects_from_target Z Z Z)) cfg1 pol batch L0 fo E).
  - assert (He : forall theta o, snd (q_eval pol theta o) = snd (q_eval pol_eval_flip theta o))
      by (intros; reflexivity).
    assert (Ht : forall theta o, q_target pol theta o = q_target pol_eval_flip theta o)
      by (intros; reflexivity).
    split; [exact He|]. split; [exact Ht|].
    exact (proj2 (proj2 (@ddqn_selects_from_target Z Z Z)) cfg1 opt_step sched_step opt_lr
             pol pol_eval_flip batch L0 He Ht).
Defined.

Lemma per_plain_max_witness :
  (exists ts t, per_targets cfg1 pol 3%Z nxt0 rew0 ter0 = Ok ts /\ nth_error ts 0 = Some t /\
     exists o r d m, nth_error nxt0 0 = Some o /\ nth_error rew0 0 = Some r /\
       nth_error ter0 0 = Some d /\
       row_max (snd (q_target pol 3%Z o)) = Ok m /\
       In m (snd (q_target pol 3%Z o)) /\
       Forall (fun x => x <= m) (snd (q_target pol 3%Z o)) /\
       t == r + gamma cfg1 * (1 - d) * m) /\
  (exists td fo, per_forward cfg1 pol batch L0 = Ok (td, fo) /\
     exists st obs act nxt rew ter ts,
       build_training_data cfg1 batch = Ok st /\
       get_obs st "obs" = Ok obs /\ get_act st "actions" = Ok act /\
       get_obs st "obs_next" = Ok nxt /\ get_real st "rewards" = Ok rew /\
       get_real st "terminals" = Ok ter /\
       per_targets cfg1 pol (target_params L0) nxt rew ter = Ok ts /\
       loss_fn fo = q_loss pol obs act ts) /\
  ((forall theta o, snd (q_eval pol theta o) = snd (q_eval pol_flip theta o)) /\
   (forall theta o, snd (q_target pol theta o) = snd (q_target pol_flip theta o)) /\
   perdqn_update cfg1 opt_step sched_step opt_lr pol batch L0 =
   perdqn_update cfg1 opt_step sched_step opt_lr pol_flip batch L0).
Proof.
  split; [|split].
  - destruct (per_targets cfg1 pol 3%Z nxt0 rew0 ter0) as [ts|e] eqn:E;
      [|vm_compute in E; discriminate E].
    pose proof E as E'. vm_compute in E'. injection E' as <-.
    eexists _, _. split; [exact E|]. split; [reflexivity|].
    exact (proj1 (@per_plain_max Z Z Z) _ _ _ _ _ _ _ 0%nat _ E eq_refl).
  - destruct (per_forward cfg1 pol batch L0) as [[td fo]|e] eqn:E;
      [|vm_compute in E; discriminate E].
    exists td, fo. split; [reflexivity|].
    exact (proj1 (proj2 (@per_plain_max Z Z Z)) cfg1 pol batch L0 td fo E).
  - assert (He : forall theta o, snd (q_eval pol theta o) = snd (q_eval pol_flip theta o))
      by (intros; reflexivity).
    assert (Ht : forall theta o, snd (q_target pol theta o) = snd (q_target pol_flip theta o))
      by (intros; reflexivity).
    split; [exact He|]. split; [exact Ht|].
    exact (proj2 (proj2 (@per_plain_max Z Z Z)) cfg1 opt_step sched_step opt_lr
             pol pol_flip batch L0 He Ht).
Defined.

Lemma drqn_fresh_hidden_slices_witness :
  (length [1; 2; 3]%Z = S 2 /\
   length (slice_cur [1; 2; 3]%Z) = 2%nat /\ length (slice_next [1; 2; 3]%Z) = 2%nat /\
   (forall i, (i < 2)%nat ->
      nth_error (slice_cur [1; 2; 3]%Z) i = nth_error [1; 2; 3]%Z i /\
      nth_error (slice_next [1; 2; 3]%Z) i = nth_error [1; 2; 3]%Z (S i))) /\
  (get_obs_seq rbatch "obs" = Ok [[1; 2; 3]; [4; 5; 6]]%Z /\
   get_size rbatch "batch_size" = Ok 2%nat /\
   (forall theta,
      fst (r_eval rpol theta (map slice_cur [[1; 2; 3]; [4; 5; 6]]%Z) (init_hidden rpol 2)) =
      fst (r_eval rpol_alt theta (map slice_cur [[1; 2; 3]; [4; 5; 6]]%Z)
             (init_hidden rpol_alt 2))) /\
   (forall theta,
      fst (r_target rpol theta (map slice_next [[1; 2; 3]; [4; 5; 6]]%Z) (init_hidden rpol 2)) =
      fst (r_target rpol_alt theta (map slice_next [[1; 2; 3]; [4; 5; 6]]%Z)
             (init_hidden rpol_alt 2))) /\
   drqn_update cfg1 opt_step sched_step opt_lr rpol rbatch L0 =
   drqn_update cfg1 opt_step sched_step opt_lr rpol_alt rbatch L0).
Proof.
  split.
  - assert (Hl : length [1; 2; 3]%Z = S 2) by reflexivity.
    split; [exact Hl|]. exact (proj1 (@drqn_fresh_hidden_slices Z Z Z nat) _ 2%nat Hl).
  - assert (Ho : get_obs_seq rbatch "obs" = Ok [[1; 2; 3]; [4; 5; 6]]%Z) by reflexivity.
    assert (Hb : get_size rbatch "batch_size" = Ok 2%nat) by reflexivity.
    assert (He : forall theta,
      fst (r_eval rpol theta (map slice_cur [[1; 2; 3]; [4; 5; 6]]%Z) (init_hidden rpol 2)) =
      fst (r_eval rpol_alt theta (map slice_cur [[1; 2; 3]; [4; 5; 6]]%Z)
             (init_hidden rpol_alt 2))) by (intros; reflexivity).
    assert (Ht : forall theta,
      fst (r_target rpol theta (map slice_next [[1; 2; 3]; [4; 5; 6]]%Z) (init_hidden rpol 2)) =
      fst (r_target rpol_alt theta (map slice_next [[1; 2; 3]; [4; 5; 6]]%Z)
             (init_hidden rpol_alt 2))) by (intros; reflexivity).
    do 4 (split; [assumption|]).
    exact (proj2 (@drqn_fresh_hidden_slices Z Z Z nat) cfg1 opt_step sched_step opt_lr
             rpol rpol_alt rbatch L0 _ _ Ho Hb He Ht).
Defined.

Lemma per_ignores_passthrough_witness :
  strip_passthrough batch = strip_passthrough batch_pt /\
  perdqn_update cfg1 opt_step sched_step opt_lr pol batch L0 =
  perdqn_update cfg1 opt_step sched_step opt_lr pol batch_pt L0.
Proof.
  assert (Hs : strip_passthrough batch = strip_passthrough batch_pt) by reflexivity.
  split; [exact Hs|].
  exact (per_ignores_passthrough cfg1 opt_step sched_step opt_lr pol batch batch_pt L0 Hs).
Defined.

Lemma ddqn_bootstrap_matches_max_witness :
  Forall (fun o =>
            let a := fst (q_target pol 3%Z o) in
            let q := snd (q_target pol 3%Z o) in
            (0 <= a < Z.of_nat (length q))%Z /\
            Forall (fun x => x <= nth (Z.to_nat a) q 0) q) nxt0 /\
  exists b1 b2, ddqn_bootstrap pol 3%Z nxt0 = Ok b1 /\
                per_bootstrap pol 3%Z nxt0 = Ok b2 /\ Forall2 Qeq b1 b2.
Proof.
  assert (Hc : Forall (fun o =>
            let a := fst (q_target pol 3%Z o) in
            let q := snd (q_target pol 3%Z o) in
            (0 <= a < Z.of_nat (length q))%Z /\
            Forall (fun x => x <= nth (Z.to_nat a) q 0) q) nxt0).
  { unfold nxt0. repeat constructor; vm_compute; discriminate. }
  split; [exact Hc|]. exact (ddqn_bootstrap_matches_max pol 3%Z nxt0 Hc).
Defined.
End Witnesses.

(** * Further properties of the learners *)

(** ** The shape of an update *)

Section UpdateShape.
Context {Obs P OptState H : Type}.
Variable cfg : config.
Variable opt_step : OptState -> P -> (P -> result Q) -> OptState * P.
Variable sched_step : OptState -> OptState.
Variable opt_lr : OptState -> Q.

Lemma finish_update_result (fo : forward_out) (L : @learner P OptState) :
  finish_update cfg opt_step sched_step opt_lr fo L =
  let '(o', th') := opt_step (optim L) (online L) (loss_fn fo) in
  let L1 := {| iterations := iterations L; online := th';
               target_params := target_params L; optim := sched_step o' |} in
  if Z.eqb (sync_frequency cfg) 0 then (L1, Err ZeroDivisionError)
  else
    let L2 := if Z.eqb (Z.modulo (iterations L) (sync_frequency cfg)) 0
              then copy_target L1 else L1 in
    (L2, Ok (make_info cfg (loss_val fo) (opt_lr (optim L2)) (qmean (predict_flat fo)))).
Proof.
  unfold finish_update, bindSE, get, put, sync_target, raise, ret.
  destruct (opt_step (optim L) (online L) (loss_fn fo)) as [o' th']. simpl.
  destruct (Z.eqb (sync_frequency cfg) 0); [reflexivity|].
  unfold bindSE, get, put, ret. simpl.
  destruct (Z.eqb (iterations L mod sync_frequency cfg)%Z 0); reflexivity.
Qed.

Lemma ddqn_update_unfold (pol : @qpolicy Obs P) s (L : @learner P OptState) :
  ddqn_update cfg opt_step sched_step opt_lr pol s L =
  let L0 := {| iterations := iterations L + 1; online := online L;
               target_params := target_params L; optim := optim L |} in
  match ddqn_forward cfg pol s L with
  | Ok fo => finish_update cfg opt_step sched_step opt_lr fo L0
  | Err e => (L0, Err e)
  end.
Proof. reflexivity. Qed.

Lemma drqn_update_unfold (pol : @rpolicy Obs P H) s (L : @learner P OptState) :
  drqn_update cfg opt_step sched_step opt_lr pol s L =
  let L0 := {| iterations := iterations L + 1; online := online L;
               target_params := target_params L; optim := optim L |} in
  match drqn_forward cfg pol s L with
  | Ok fo => finish_update cfg opt_step sched_step opt_lr fo L0
  | Err e => (L0, Err e)
  end.
Proof. reflexivity. Qed.

Lemma perdqn_update_unfold (pol : @qpolicy Obs P) s (L : @learner P OptState) :
  perdqn_update cfg opt_step sched_step opt_lr pol s L =
  let L0 := {| iterations := iterations L + 1; online := online L;
               target_params := target_params L; optim := optim L |} in
  match per_forward cfg pol s L with
  | Ok (td, fo) =>
      let '(L', r) := finish_update cfg opt_step sched_step opt_lr fo L0 in
      (L', match r with Ok inf => Ok (map Qabs td, inf) | Err e => Err e end)
  | Err e => (L0, Err e)
  end.
Proof.
  unfold perdqn_update, bindSE, incr_iterations, get, put, lift, ret. simpl.
  change (per_forward cfg pol s
            {| iterations := iterations L + 1; online := online L;
               target_params := target_params L; optim := optim L |})
    with (per_forward cfg pol s L).
  destruct (per_forward cfg pol s L) as [[td fo]|e]; [|reflexivity]. simpl.
  destruct (finish_update cfg opt_step sched_step opt_lr fo _) as [L' [inf|e]]; reflexivity.
Qed.

End UpdateShape.

(** Peels the successful reads of a forward pass [rbind m k = Ok _],
    recording each read as an equation. *)
Ltac peel H :=
  repeat match type of H with
  | rbind ?m _ = Ok _ =>
      let E := fresh "E" in destruct m eqn:E; cbn [rbind] in H; [|discriminate H]
  end.

Lemma get_key_present {Obs A : Type} (f : @sval Obs -> result A) (s : @samples Obs) k x :
  rbind (get_key s k) f = Ok x -> exists v, lookup k s = Some v.
Proof.
  unfold get_key. destruct (lookup k s) as [v|]; [eauto | discriminate].
Qed.

Lemma lookup_In {Obs : Type} k (l : @samples Obs) v : lookup k l = Some v -> In (k, v) l.
Proof.
  induction l as [|[k' v'] l IH]; simpl; [discriminate|].
  destruct (String.eqb_spec k k') as [->|]; [intros E; injection E as <-; left; reflexivity|].
  intros E. right. exact (IH E).
Qed.

Lemma In_lookup {Obs : Type} k (l : @samples Obs) v : In (k, v) l -> exists v', lookup k l = Some v'.
Proof.
  induction l as [|[k' v'] l IH]; simpl; [intros []|].
  destruct (String.eqb_spec k k'); [eauto|].
  intros [E|Hi]; [injection E as -> _; contradiction | exact (IH Hi)].
Qed.

Lemma build_training_data_lookup {Obs : Type} (cfg : config) (s : @samples Obs) st k v :
  build_training_data cfg s = Ok st -> lookup k st = Some v -> exists v0, lookup k s = Some v0.
Proof.
  unfold build_training_data.
  destruct (get_size s "batch_size") as [B|]; cbn [rbind]; [|discriminate].
  destruct (Nat.ltb 1 (world_size cfg)).
  - intros Hb Hl.
    destruct (lookup_mapM_entries
                (fun v => index_sval v (shard_indices (world_size cfg) (env_RANK cfg) B))
                _ _ Hb _ _ Hl) as (v0 & Hv0 & _).
    apply lookup_In in Hv0. apply filter_In in Hv0 as [Hi _].
    exact (In_lookup _ _ _ Hi).
  - intros Hb Hl. injection Hb as <-.
    apply lookup_In in Hl. apply filter_In in Hl as [Hi _].
    exact (In_lookup _ _ _ Hi).
Qed.

(** Extra: a call of [update] that raises during its forward part (a
    missing or ill-typed entry, a shape or index error) returns the error
    with the iteration counter already incremented and the online
    parameters, target parameters and optimizer state untouched. *)
Theorem update_error_no_rollback {Obs P OptState H : Type} (cfg : config)
  (opt_step : OptState -> P -> (P -> result Q) -> OptState * P)
  (sched_step : OptState -> OptState) (opt_lr : OptState -> Q) :
  (forall (pol : @qpolicy Obs P) s (L : @learner P OptState) e,
     ddqn_forward cfg pol s L = Err e ->
     ddqn_update cfg opt_step sched_step opt_lr pol s L =
     ({| iterations := iterations L + 1; online := online L;
         target_params := target_params L; optim := optim L |}, Err e)) /\
  (forall (pol : @rpolicy Obs P H) s (L : @learner P OptState) e,
     drqn_forward cfg pol s L = Err e ->
     drqn_update cfg opt_step sched_step opt_lr pol s L =
     ({| iterations := iterations L + 1; online := online L;
         target_params := target_params L; optim := optim L |}, Err e)) /\
  (forall (pol : @qpolicy Obs P) s (L : @learner P OptState) e,
     per_forward cfg pol s L = Err e ->
     perdqn_update cfg opt_step sched_step opt_lr pol s L =
     ({| iterations := iterations L + 1; online := online L;
         target_params := target_params L; optim := optim L |}, Err e)).
Proof.
  split; [|split]; intros pol s L e He.
  - rewrite ddqn_update_unfold, He. reflexivity.
  - rewrite drqn_update_unfold, He. reflexivity.
  - rewrite perdqn_update_unfold, He. reflexivity.
Qed.

(** Extra: with [sync_frequency = 0] every call whose forward part
    succeeds raises [ZeroDivisionError] at the sync test, after the
    optimizer and scheduler steps: the online parameters and optimizer
    state have moved and the counter is incremented, the target parameters
    are unchanged. *)
Theorem update_sync_zero_raises {Obs P OptState H : Type} (cfg : config)
  (opt_step : OptState -> P -> (P -> result Q) -> OptState * P)
  (sched_step : OptState -> OptState) (opt_lr : OptState -> Q) :
  sync_frequency cfg = 0%Z ->
  (forall (pol : @qpolicy Obs P) s (L : @learner P OptState) fo,
     ddqn_forward cfg pol s L = Ok fo ->
     ddqn_update cfg opt_step sched_step opt_lr pol s L =
     ({| iterations := iterations L + 1;
         online := snd (opt_step (optim L) (online L) (loss_fn fo));
         target_params := target_params L;
         optim := sched_step (fst (opt_step (optim L) (online L) (loss_fn fo))) |},
      Err ZeroDivisionError)) /\
  (forall (pol : @rpolicy Obs P H) s (L : @learner P OptState) fo,
     drqn_forward cfg pol s L = Ok fo ->
     drqn_update cfg opt_step sched_step opt_lr pol s L =
     ({| iterations := iterations L + 1;
         online := snd (opt_step (optim L) (online L) (loss_fn fo));
         target_params := target_params L;
         optim := sched_step (fst (opt_step (optim L) (online L) (loss_fn fo))) |},
      Err ZeroDivisionError)) /\
  (forall (pol : @qpolicy Obs P) s (L : @learner P OptState) td fo,
     per_forward cfg pol s L = Ok (td, fo) ->
     perdqn_update cfg opt_step sched_step opt_lr pol s L =
     ({| iterations := iterations L + 1;
         online := snd (opt_step (optim L) (online L) (loss_fn fo));
         target_params := target_params L;
         optim := sched_step (fst (opt_step (optim L) (online L) (loss_fn fo))) |},
      Err ZeroDivisionError)).
Proof.
  intros Hz. split; [|split].
  - intros pol s L fo Hf. rewrite ddqn_update_unfold, Hf. cbv zeta.
    rewrite finish_update_result. simpl.
    destruct (opt_step (optim L) (online L) (loss_fn fo)) as [o' th']. simpl.
    rewrite Hz. reflexivity.
  - intros pol s L fo Hf. rewrite drqn_update_unfold, Hf. cbv zeta.
    rewrite finish_update_result. simpl.
    destruct (opt_step (optim L) (online L) (loss_fn fo)) as [o' th']. simpl.
    rewrite Hz. reflexivity.
  - intros pol s L td fo Hf. rewrite perdqn_update_unfold, Hf. cbv zeta.
    rewrite finish_update_result. simpl.
    destruct (opt_step (optim L) (online L) (loss_fn fo)) as [o' th']. simpl.
    rewrite Hz. reflexivity.
Qed.

(** Extra: a call of [update] that returns has read every entry its
    learner uses: [obs], [actions], [obs_next], [rewards] and [terminals]
    for Double DQN; [obs], [actions], [rewards], [terminals] and
    [batch_size] for DRQN (which reads no [obs_next]); [batch_size],
    [obs], [actions], [obs_next], [rewards] and [terminals] for PER-DQN.
    A mapping missing one of them makes the call raise. *)
Theorem update_requires_keys {Obs P OptState H : Type} (cfg : config)
  (opt_step : OptState -> P -> (P -> result Q) -> OptState * P)
  (sched_step : OptState -> OptState) (opt_lr : OptState -> Q) :
  (forall (pol : @qpolicy Obs P) s (L L' : @learner P OptState) inf,
     ddqn_update cfg opt_step sched_step opt_lr pol s L = (L', Ok inf) ->
     forall k, In k ["obs"; "actions"; "obs_next"; "rewards"; "terminals"]%string ->
     exists v, lookup k s = Some v) /\
  (forall (pol : @rpolicy Obs P H) s (L L' : @learner P OptState) inf,
     drqn_update cfg opt_step sched_step opt_lr pol s L = (L', Ok inf) ->
     forall k, In k ["obs"; "actions"; "rewards"; "terminals"; "batch_size"]%string ->
     exists v, lookup k s = Some v) /\
  (forall (pol : @qpolicy Obs P) s (L L' : @learner P OptState) r,
     perdqn_update cfg opt_step sched_step opt_lr pol s L = (L', Ok r) ->
     forall k, In k ["batch_size"; "obs"; "actions"; "obs_next"; "rewards";
                     "terminals"]%string ->
     exists v, lookup k s = Some v).
Proof.
  split; [|split].
  - intros pol s L L' inf Hu k Hk.
    rewrite ddqn_update_unfold in Hu.
    destruct (ddqn_forward cfg pol s L) as [fo|e] eqn:Hf; [|discriminate Hu].
    unfold ddqn_forward in Hf. peel Hf.
    simpl in Hk. destruct Hk as [<-|[<-|[<-|[<-|[<-|[]]]]]];
      match goal with E : _ = Ok _ |- _ => eapply get_key_present; exact E end.
  - intros pol s L L' inf Hu k Hk.
    rewrite drqn_update_unfold in Hu.
    destruct (drqn_forward cfg pol s L) as [fo|e] eqn:Hf; [|discriminate Hu].
    unfold drqn_forward in Hf. peel Hf.
    simpl in Hk. destruct Hk as [<-|[<-|[<-|[<-|[<-|[]]]]]];
      match goal with E : _ = Ok _ |- _ => eapply get_key_present; exact E end.
  - intros pol s L L' r Hu k Hk.
    rewrite perdqn_update_unfold in Hu.
    destruct (per_forward cfg pol s L) as [[td fo]|e] eqn:Hf; [|discriminate Hu].
    unfold per_forward in Hf.
    destruct (build_training_data cfg s) as [st|] eqn:Eb; cbn [rbind] in Hf; [|discriminate Hf].
    peel Hf.
    simpl in Hk. destruct Hk as [<-|Hk].
    + unfold build_training_data, get_size, get_key in Eb.
      destruct (lookup "batch_size" s); [eauto | discriminate Eb].
    + destruct Hk as [<-|[<-|[<-|[<-|[<-|[]]]]]];
        match goal with
        | E : _ = Ok _ |- exists v, lookup ?k s = _ =>
            let El := fresh "El" in
            assert (El : exists v, lookup k st = Some v) by
              (eapply get_key_present; exact E);
            destruct El as [v El];
            exact (build_training_data_lookup _ _ _ _ _ Eb El)
        end.
Qed.

Lemma finish_update_ok {P OptState : Type} (cfg : config)
  (opt_step : OptState -> P -> (P -> result Q) -> OptState * P)
  (sched_step : OptState -> OptState) (opt_lr : OptState -> Q) fo (L L' : @learner P OptState) inf :
  finish_update cfg opt_step sched_step opt_lr fo L = (L', Ok inf) ->
  online L' = snd (opt_step (optim L) (online L) (loss_fn fo)) /\
  optim L' = sched_step (fst (opt_step (optim L) (online L) (loss_fn fo))) /\
  inf = make_info cfg (loss_val fo) (opt_lr (optim L')) (qmean (predict_flat fo)).
Proof.
  rewrite finish_update_result.
  destruct (opt_step (optim L) (online L) (loss_fn fo)) as [o' th']. simpl.
  destruct (Z.eqb (sync_frequency cfg) 0); [discriminate|].
  destruct (Z.eqb (iterations L mod sync_frequency cfg)%Z 0);
    intros Hu; injection Hu as <- <-; simpl; auto.
Qed.

(** Extra: the statistics a returning call reports are those of the
    forward pass at the parameters it was called with: [Qloss] is the loss
    at the online parameters before the optimizer step, [predictQ] the mean
    of those parameters' predictions, and [learning_rate] is read from the
    optimizer state after the optimizer and scheduler steps. *)
Theorem update_reports_prestep_stats {Obs P OptState H : Type} (cfg : config)
  (opt_step : OptState -> P -> (P -> result Q) -> OptState * P)
  (sched_step : OptState -> OptState) (opt_lr : OptState -> Q) :
  (forall (pol : @qpolicy Obs P) s (L L' : @learner P OptState) inf,
     ddqn_update cfg opt_step sched_step opt_lr pol s L = (L', Ok inf) ->
     exists fo obs act, ddqn_forward cfg pol s L = Ok fo /\
       get_obs s "obs" = Ok obs /\ get_act s "actions" = Ok act /\
       predict_q pol (online L) obs act = Ok (predict_flat fo) /\
       loss_fn fo (online L) = Ok (loss_val fo) /\
       online L' = snd (opt_step (optim L) (online L) (loss_fn fo)) /\
       optim L' = sched_step (fst (opt_step (optim L) (online L) (loss_fn fo))) /\
       inf = make_info cfg (loss_val fo) (opt_lr (optim L')) (qmean (predict_flat fo))) /\
  (forall (pol : @rpolicy Obs P H) s (L L' : @learner P OptState) inf,
     drqn_update cfg opt_step sched_step opt_lr pol s L = (L', Ok inf) ->
     exists fo, drqn_forward cfg pol s L = Ok fo /\
       loss_fn fo (online L) = Ok (loss_val fo) /\
       online L' = snd (opt_step (optim L) (online L) (loss_fn fo)) /\
       optim L' = sched_step (fst (opt_step (optim L) (online L) (loss_fn fo))) /\
       inf = make_info cfg (loss_val fo) (opt_lr (optim L')) (qmean (predict_flat fo))) /\
  (forall (pol : @qpolicy Obs P) s (L L' : @learner P OptState) td inf,
     perdqn_update cfg opt_step sched_step opt_lr pol s L = (L', Ok (td, inf)) ->
     exists td0 fo st obs act, per_forward cfg pol s L = Ok (td0, fo) /\
       build_training_data cfg s = Ok st /\
       get_obs st "obs" = Ok obs /\ get_act st "actions" = Ok act /\
       predict_q pol (online L) obs act = Ok (predict_flat fo) /\
       loss_fn fo (online L) = Ok (loss_val fo) /\
       online L' = snd (opt_step (optim L) (online L) (loss_fn fo)) /\
       optim L' = sched_step (fst (opt_step (optim L) (online L) (loss_fn fo))) /\
       td = map Qabs td0 /\
       inf = make_info cfg (loss_val fo) (opt_lr (optim L')) (qmean (predict_flat fo))).
Proof.
  split; [|split].
  - intros pol s L L' inf Hu.
    rewrite ddqn_update_unfold in Hu.
    destruct (ddqn_forward cfg pol s L) as [fo|e] eqn:Hf; [|discriminate Hu].
    destruct (finish_update_ok _ _ _ _ _ _ _ _ Hu) as (H1 & H2 & H3). simpl in H1, H2.
    pose proof Hf as Hf'. unfold ddqn_forward in Hf'.
    destruct (get_obs s "obs") as [obs|] eqn:Eo; cbn [rbind] in Hf'; [|discriminate].
    destruct (get_act s "actions") as [act|] eqn:Ea; cbn [rbind] in Hf'; [|discriminate].
    destruct (get_obs s "obs_next"); cbn [rbind] in Hf'; [|discriminate].
    destruct (get_real s "rewards"); cbn [rbind] in Hf'; [|discriminate].
    destruct (get_real s "terminals"); cbn [rbind] in Hf'; [|discriminate].
    destruct (ddqn_targets _ _ _ _ _ _) as [tgt|]; cbn [rbind] in Hf'; [|discriminate].
    destruct (predict_q pol (online L) obs act) as [pred|] eqn:Ep; cbn [rbind] in Hf';
      [|discriminate].
    destruct (mse pred tgt) as [loss|] eqn:Em; cbn [rbind] in Hf'; [|discriminate].
    injection Hf' as Efo. subst fo.
    exists {| loss_fn := q_loss pol obs act tgt; loss_val := loss; predict_flat := pred |},
      obs, act.
    do 3 (split; [reflexivity|]). split; [exact Ep|].
    split; [cbn [loss_fn loss_val]; unfold q_loss; rewrite Ep; exact Em|].
    split; [exact H1|]. split; [exact H2 | exact H3].
  - intros pol s L L' inf Hu.
    rewrite drqn_update_unfold in Hu.
    destruct (drqn_forward cfg pol s L) as [fo|e] eqn:Hf; [|discriminate Hu].
    destruct (finish_update_ok _ _ _ _ _ _ _ _ Hu) as (H1 & H2 & H3). simpl in H1, H2.
    exists fo. split; [reflexivity|].
    split; [|split; [exact H1 | split; [exact H2 | exact H3]]].
    unfold drqn_forward in Hf.
    destruct (get_obs_seq s "obs") as [obs|]; cbn [rbind] in Hf; [|discriminate].
    destruct (get_act_seq s "actions") as [act|]; cbn [rbind] in Hf; [|discriminate].
    destruct (get_real_seq s "rewards"); cbn [rbind] in Hf; [|discriminate].
    destruct (get_real_seq s "terminals"); cbn [rbind] in Hf; [|discriminate].
    destruct (get_size s "batch_size") as [bs|]; cbn [rbind] in Hf; [|discriminate].
    destruct (drqn_targets _ _ _ _ _) as [tgt|]; cbn [rbind] in Hf; [|discriminate].
    destruct (drqn_predict _ act) as [pred|] eqn:Ep; cbn [rbind] in Hf; [|discriminate].
    destruct (mse2 pred tgt) as [loss|] eqn:Em; cbn [rbind] in Hf; [|discriminate].
    injection Hf as <-. simpl. unfold drqn_loss. rewrite Ep. exact Em.
  - intros pol s L L' td inf Hu.
    rewrite perdqn_update_unfold in Hu.
    destruct (per_forward cfg pol s L) as [[td0 fo]|e] eqn:Hf; [|discriminate Hu].
    cbv zeta in Hu.
    destruct (finish_update cfg opt_step sched_step opt_lr fo _) as [L1 [inf1|e]] eqn:Ef;
      [|discriminate Hu].
    injection Hu as <- <- <-.
    destruct (finish_update_ok _ _ _ _ _ _ _ _ Ef) as (H1 & H2 & H3). simpl in H1, H2.
    pose proof Hf as Hf'. unfold per_forward in Hf'.
    destruct (build_training_data cfg s) as [st|] eqn:Eb; cbn [rbind] in Hf'; [|discriminate].
    destruct (get_obs st "obs") as [obs|] eqn:Eo; cbn [rbind] in Hf'; [|discriminate].
    destruct (get_act st "actions") as [act|] eqn:Ea; cbn [rbind] in Hf'; [|discriminate].
    destruct (get_obs st "obs_next"); cbn [rbind] in Hf'; [|discriminate].
    destruct (get_real st "rewards"); cbn [rbind] in Hf'; [|discriminate].
    destruct (get_real st "terminals"); cbn [rbind] in Hf'; [|discriminate].
    destruct (per_targets _ _ _ _ _ _) as [tgt|]; cbn [rbind] in Hf'; [|discriminate].
    destruct (predict_q pol (online L) obs act) as [pred|] eqn:Ep; cbn [rbind] in Hf';
      [|discriminate].
    destruct (zip_with Qminus tgt pred); cbn [rbind] in Hf'; [|discriminate].
    destruct (mse pred tgt) as [loss|] eqn:Em; cbn [rbind] in Hf'; [|discriminate].
    injection Hf' as <- Efo. subst fo.
    eexists _, _, st, obs, act.
    do 5 (split; [first [reflexivity | assumption]|]).
    split; [cbn [loss_fn loss_val]; unfold q_loss; rewrite Ep; exact Em|].
    repeat (split; [assumption|]). split; [reflexivity | exact H3].
Qed.

(** ** Rank suffixes of the statistics keys *)

Lemma list_ascii_app (a b : string) :
  list_ascii_of_string (a ++ b) = list_ascii_of_string a ++ list_ascii_of_string b.
Proof. induction a as [|c a IH]; simpl; [reflexivity | rewrite IH; reflexivity]. Qed.

Lemma string_app_assoc (a b c : string) : ((a ++ b) ++ c = a ++ (b ++ c))%string.
Proof. induction a as [|x a IH]; simpl; [reflexivity | rewrite IH; reflexivity]. Qed.

Lemma string_app_empty (a : string) : (a ++ "")%string = a.
Proof. induction a as [|x a IH]; simpl; [reflexivity | rewrite IH; reflexivity]. Qed.

Lemma string_app_cancel (p x y : string) : (p ++ x = p ++ y)%string -> x = y.
Proof. induction p as [|c p IH]; simpl; [auto | intros E; injection E; exact IH]. Qed.

Lemma digit_char (m : nat) :
  (m < 10)%nat -> Ascii.nat_of_ascii (Ascii.ascii_of_nat (48 + m)) = (48 + m)%nat.
Proof. intros Hm. apply Ascii.nat_ascii_embedding. lia. Qed.

Lemma digits_aux_S (fuel n : nat) (acc : string) :
  digits_aux (S fuel) n acc =
  if (n <? 10)%nat then (String (Ascii.ascii_of_nat (48 + n mod 10)) EmptyString ++ acc)%string
  else digits_aux fuel (n / 10) (String (Ascii.ascii_of_nat (48 + n mod 10)) EmptyString ++ acc)%string.
Proof. reflexivity. Qed.

Lemma digits_aux_spec :
  forall fuel n acc, (n < fuel)%nat ->
  exists pre, digits_aux fuel n acc = (pre ++ acc)%string /\ pre <> ""%string /\
    dval pre = n /\ forallb is_digit (list_ascii_of_string pre) = true.
Proof.
  induction fuel as [|fuel IH]; intros n acc Hn; [lia|].
  rewrite digits_aux_S.
  remember (Ascii.ascii_of_nat (48 + n mod 10)) as c eqn:Ec.
  assert (Hc : Ascii.nat_of_ascii c = (48 + n mod 10)%nat)
    by (rewrite Ec; apply digit_char; apply Nat.mod_upper_bound; lia).
  clear Ec.
  assert (Hdig : is_digit c = true).
  { unfold is_digit. rewrite Hc. pose proof (Nat.mod_upper_bound n 10).
    apply andb_true_intro; split; apply Nat.leb_le; lia. }
  destruct (Nat.ltb_spec n 10) as [Hlt|Hge].
  - exists (String c EmptyString). split; [reflexivity|]. split; [discriminate|].
    split.
    + unfold dval, digit_val. cbn [list_ascii_of_string fold_left]. rewrite Hc.
      rewrite Nat.mod_small by lia. lia.
    + cbn [list_ascii_of_string forallb]. rewrite Hdig. reflexivity.
  - assert (Hq : (n / 10 < fuel)%nat).
    { assert (Hd10 : (n / 10 < n)%nat) by (apply Nat.div_lt; lia). lia. }
    destruct (IH (n / 10)%nat (String c EmptyString ++ acc)%string Hq)
      as (pre & E & Hne & Hv & Hd).
    exists (pre ++ String c EmptyString)%string.
    split; [rewrite E, string_app_assoc; reflexivity|].
    split; [destruct pre; [contradiction | discriminate]|].
    split.
    + unfold dval in *. rewrite list_ascii_app, fold_left_app, Hv.
      cbn [list_ascii_of_string fold_left].
      unfold digit_val. rewrite Hc.
      pose proof (Nat.div_mod_eq n 10). lia.
    + rewrite list_ascii_app, forallb_app, Hd. cbn [list_ascii_of_string forallb].
      rewrite Hdig. reflexivity.
Qed.

Lemma string_of_nat_spec (n : nat) :
  string_of_nat n <> ""%string /\
  forallb is_digit (list_ascii_of_string (string_of_nat n)) = true /\
  dval (string_of_nat n) = n.
Proof.
  unfold string_of_nat.
  destruct (digits_aux_spec (S n) n "" ltac:(lia)) as (pre & E & Hne & Hv & Hd).
  rewrite E, string_app_empty. auto.
Qed.

Lemma string_of_nat_inj (a b : nat) : string_of_nat a = string_of_nat b -> a = b.
Proof.
  intros E.
  rewrite <- (proj2 (proj2 (string_of_nat_spec a))), <- (proj2 (proj2 (string_of_nat_spec b))).
  rewrite E. reflexivity.
Qed.


(** Extra: two workers with different ranks, both in distributed mode,
    report statistics under disjoint sets of keys, whatever the values. *)
Theorem info_keys_disjoint_ranks (c1 c2 : config) (l1 r1 p1 l2 r2 p2 : Q) :
  distributed_training c1 = true -> distributed_training c2 = true ->
  rank c1 <> rank c2 ->
  forall k, In k (map fst (make_info c1 l1 r1 p1)) ->
  ~ In k (map fst (make_info c2 l2 r2 p2)).
Proof.
  intros D1 D2 Hr k. unfold make_info. rewrite D1, D2.
  remember (string_of_nat (rank c1)) as s1 eqn:E1.
  remember (string_of_nat (rank c2)) as s2 eqn:E2.
  assert (Hs : s1 <> s2) by (intros Es; apply Hr, string_of_nat_inj; congruence).
  clear E1 E2. cbn [map fst In].
  intros H1 H2.
  destruct H1 as [<-|[<-|[<-|[]]]]; destruct H2 as [E|[E|[E|[]]]];
    try discriminate E;
    apply Hs; symmetry;
    first [ exact (string_app_cancel "Qloss/rank_" _ _ E)
          | exact (string_app_cancel "learning_rate/rank_" _ _ E)
          | exact (string_app_cancel "predictQ/rank_" _ _ E) ].
Qed.

(** ** Row selection with a [range] *)







(** ** Action indices *)


(** ** The prioritized loss and the returned TD errors *)

Lemma qsum_compat (l1 l2 : list Q) : Forall2 Qeq l1 l2 -> qsum l1 == qsum l2.
Proof.
  induction 1 as [|x y l1 l2 Hxy _ IH]; [reflexivity|].
  unfold qsum in *. simpl. rewrite Hxy, IH. reflexivity.
Qed.

Lemma qmean_compat (l1 l2 : list Q) : Forall2 Qeq l1 l2 -> qmean l1 == qmean l2.
Proof.
  intros HF. unfold qmean. rewrite (Forall2_length HF), (qsum_compat _ _ HF). reflexivity.
Qed.

Lemma Qabs_sq (x : Q) : Qabs x * Qabs x == x * x.
Proof.
  pattern (Qabs x). apply Qabs_case; intros _; ring.
Qed.

Lemma sq_of_td (tgt pred d sq : list Q) :
  zip_with Qminus tgt pred = Ok d ->
  zip_with (fun p t => (p - t) * (p - t)) pred tgt = Ok sq ->
  Forall2 Qeq (map (fun x => x * x) (map Qabs d)) sq.
Proof.
  unfold zip_with. revert pred d sq.
  induction tgt as [|t tgt IH]; intros [|p pred] d sq E1 E2; cbn [zipM] in E1, E2;
    try discriminate.
  - injection E1 as <-. injection E2 as <-. constructor.
  - destruct (zipM _ tgt pred) as [d'|] eqn:Ed; cbn [rbind] in E1; [|discriminate].
    destruct (zipM _ pred tgt) as [sq'|] eqn:Es; cbn [rbind] in E2; [|discriminate].
    injection E1 as <-. injection E2 as <-. cbn [map].
    constructor; [|exact (IH _ _ _ Ed Es)].
    eapply Qeq_trans; [apply Qabs_sq | ring].
Qed.

(** Extra: the [Qloss] statistic of a returning prioritized update is the
    mean of the squares of the TD-error magnitudes it returns (the
    priorities), on the rows this worker trained on. *)
Theorem per_loss_mean_sq_td {Obs P OptState : Type} (cfg : config)
  (opt_step : OptState -> P -> (P -> result Q) -> OptState * P)
  (sched_step : OptState -> OptState) (opt_lr : OptState -> Q)
  (pol : @qpolicy Obs P) s (L L' : @learner P OptState) td inf :
  perdqn_update cfg opt_step sched_step opt_lr pol s L = (L', Ok (td, inf)) ->
  exists k v, nth_error inf 0 = Some (k, v) /\
    k = (if distributed_training cfg
         then "Qloss/rank_" ++ string_of_nat (rank cfg) else "Qloss")%string /\
    v == qmean (map (fun x => x * x) td).
Proof.
  intros Hu. rewrite perdqn_update_unfold in Hu.
  destruct (per_forward cfg pol s L) as [[td0 fo]|e] eqn:Hf; [|discriminate Hu].
  cbv zeta in Hu.
  destruct (finish_update cfg opt_step sched_step opt_lr fo _) as [L1 [inf1|e]] eqn:Ef;
    [|discriminate Hu].
  injection Hu as <- <- <-.
  destruct (finish_update_ok _ _ _ _ _ _ _ _ Ef) as (_ & _ & ->).
  unfold per_forward in Hf.
  destruct (build_training_data cfg s) as [st|]; cbn [rbind] in Hf; [|discriminate].
  destruct (get_obs st "obs"); cbn [rbind] in Hf; [|discriminate].
  destruct (get_act st "actions"); cbn [rbind] in Hf; [|discriminate].
  destruct (get_obs st "obs_next"); cbn [rbind] in Hf; [|discriminate].
  destruct (get_real st "rewards"); cbn [rbind] in Hf; [|discriminate].
  destruct (get_real st "terminals"); cbn [rbind] in Hf; [|discriminate].
  destruct (per_targets _ _ _ _ _ _) as [tgt|]; cbn [rbind] in Hf; [|discriminate].
  destruct (predict_q _ _ _ _) as [pred|]; cbn [rbind] in Hf; [|discriminate].
  destruct (zip_with Qminus tgt pred) as [d|] eqn:Ed; cbn [rbind] in Hf; [|discriminate].
  unfold mse in Hf.
  destruct (zip_with (fun p t => (p - t) * (p - t)) pred tgt) as [sq|] eqn:Es;
    cbn [rbind] in Hf; [|discriminate].
  injection Hf as <- <-.
  exists (if distributed_training cfg
          then "Qloss/rank_" ++ string_of_nat (rank cfg) else "Qloss")%string, (qmean sq).
  split; [unfold make_info; destruct (distributed_training cfg); reflexivity|].
  split; [reflexivity|].
  symmetry. apply qmean_compat. exact (sq_of_td _ _ _ _ Ed Es).
Qed.

(** ** Target staleness over a run of updates *)

Section Runs.
Context {Bt P OptState A : Type}.
Variable sf : Z.
Hypothesis Hsf : (0 < sf)%Z.
Variable step : Bt -> @SE P OptState A.
Hypothesis Hgate : forall b L,
  let '(L', r) := step b L in
  iterations L' = (iterations L + 1)%Z /\
  (~ (sf | iterations L')%Z -> target_params L' = target_params L) /\
  ((sf | iterations L')%Z -> (exists v, r = Ok v) -> target_params L' = online L').

Lemma run_app (xs ys : list Bt) (L : @learner P OptState) :
  run step (xs ++ ys) L =
  let '(L1, r) := run step xs L in
  match r with Ok _ => run step ys L1 | Err e => (L1, Err e) end.
Proof.
  revert L. induction xs as [|x xs IH]; intros L; [reflexivity|].
  cbn [app run]. unfold bindSE.
  destruct (step x L) as [L1 [v|e]]; [apply IH | reflexivity].
Qed.

Lemma run_ok_iterations (ss : list Bt) (L L' : @learner P OptState) :
  run step ss L = (L', Ok tt) ->
  iterations L' = (iterations L + Z.of_nat (length ss))%Z.
Proof.
  revert L. induction ss as [|x ss IH]; intros L Hr.
  - cbn in Hr. injection Hr as <-. simpl. ring.
  - cbn [run] in Hr. unfold bindSE in Hr. pose proof (Hgate x L) as Hg.
    destruct (step x L) as [L1 [v|e]]; [|discriminate Hr].
    destruct Hg as (Hi & _). rewrite (IH L1 Hr), Hi. cbn [length]. lia.
Qed.

Lemma run_last_sync (ss : list Bt) (L L' : @learner P OptState) :
  run step ss L = (L', Ok tt) ->
  (target_params L' = target_params L /\
   forall j, (1 <= j <= length ss)%nat -> ~ (sf | iterations L + Z.of_nat j)%Z) \/
  (exists ss1 ss2, ss = ss1 ++ ss2 /\ ss1 <> [] /\
     (sf | iterations L + Z.of_nat (length ss1))%Z /\
     (forall j, (1 <= j <= length ss2)%nat ->
        ~ (sf | iterations L + Z.of_nat (length ss1 + j))%Z) /\
     target_params L' = online (fst (run step ss1 L))).
Proof.
  revert L'. induction ss as [|x xs IH] using rev_ind; intros L' Hr.
  - cbn in Hr. injection Hr as <-. left. split; [reflexivity|]. cbn. lia.
  - rewrite run_app in Hr.
    destruct (run step xs L) as [L1 [[]|e]] eqn:E1; [|discriminate Hr].
    cbn [run] in Hr. unfold bindSE in Hr. pose proof (Hgate x L1) as Hg.
    destruct (step x L1) as [L2 [v|e]] eqn:E2; [|discriminate Hr].
    cbn in Hr. injection Hr as <-.
    destruct Hg as (Hi & Hn & Hy).
    pose proof (run_ok_iterations _ _ _ E1) as Hit.
    rewrite length_app. cbn [length].
    destruct (Z.eq_dec (iterations L2 mod sf) 0) as [Hm|Hm].
    + assert (Hd : (sf | iterations L2)%Z) by (apply Z.mod_divide; lia).
      right. exists (xs ++ [x]), []. split; [symmetry; apply app_nil_r|].
      split; [intros Hc; apply (app_cons_not_nil xs [] x); symmetry; exact Hc|].
      split; [rewrite length_app; cbn [length];
              replace (iterations L + Z.of_nat (length xs + 1))%Z with (iterations L2) by lia;
              exact Hd|].
      split; [cbn; lia|].
      rewrite run_app, E1. cbn [run]. unfold bindSE. rewrite E2. cbn [fst].
      apply Hy; [exact Hd | eexists; reflexivity].
    + assert (Hd : ~ (sf | iterations L2)%Z)
        by (intros Hd; apply Hm; apply Z.mod_divide; [lia | exact Hd]).
      specialize (Hn Hd).
      destruct (IH L1 eq_refl) as [[Ht Hj] | (ss1 & ss2 & -> & Hne & Hs1 & Hj & Ht)].
      * left. split; [congruence|].
        intros j Hj'. destruct (Nat.eq_dec j (length xs + 1)) as [->|Hneq].
        -- replace (iterations L + Z.of_nat (length xs + 1))%Z with (iterations L2) by lia.
           exact Hd.
        -- apply Hj. lia.
      * right. exists ss1, (ss2 ++ [x]).
        split; [symmetry; apply app_assoc|].
        split; [exact Hne|]. split; [exact Hs1|].
        split; [|congruence].
        rewrite length_app in Hit |- *. cbn [length].
        intros j Hj'. destruct (Nat.eq_dec j (length ss2 + 1)) as [->|Hneq].
        -- replace (iterations L + Z.of_nat (length ss1 + (length ss2 + 1)))%Z
             with (iterations L2) by lia.
           exact Hd.
        -- apply Hj. lia.
Qed.

Lemma run_staleness (ss : list Bt) (L L' : @learner P OptState) :
  run step ss L = (L', Ok tt) ->
  (Z.to_nat sf <= length ss)%nat ->
  exists ss1 ss2, ss = ss1 ++ ss2 /\ ss1 <> [] /\
    (length ss2 < Z.to_nat sf)%nat /\
    target_params L' = online (fst (run step ss1 L)).
Proof.
  intros Hr Hlen.
  destruct (run_last_sync ss L L' Hr) as [[_ Hj] | (ss1 & ss2 & Hss & Hne & Hs1 & Hj & Ht)].
  - exfalso.
    pose proof (Z.mod_pos_bound (iterations L) sf Hsf) as Hb.
    pose proof (Z.div_mod (iterations L) sf ltac:(lia)) as Hdm.
    set (q := (iterations L / sf)%Z) in *. set (m := (iterations L mod sf)%Z) in *.
    apply (Hj (Z.to_nat (sf - m))); [lia|].
    exists (q + 1)%Z. rewrite Z2Nat.id by lia. lia.
  - exists ss1, ss2. split; [exact Hss|]. split; [exact Hne|]. split; [|exact Ht].
    destruct (Nat.lt_ge_cases (length ss2) (Z.to_nat sf)) as [Hlt|Hge]; [exact Hlt|].
    exfalso. apply (Hj (Z.to_nat sf)); [lia|].
    destruct Hs1 as [k Hk]. exists (k + 1)%Z.
    rewrite Nat2Z.inj_add, Z2Nat.id by lia. lia.
Qed.

End Runs.

Lemma update_gates {Obs P OptState H : Type} (cfg : config)
  (opt_step : OptState -> P -> (P -> result Q) -> OptState * P)
  (sched_step : OptState -> OptState) (opt_lr : OptState -> Q) :
  (forall (pol : @qpolicy Obs P) s L,
     let '(L', r) := ddqn_update cfg opt_step sched_step opt_lr pol s L in
     iterations L' = (iterations L + 1)%Z /\
     (~ (sync_frequency cfg | iterations L')%Z -> target_params L' = target_params L) /\
     ((sync_frequency cfg | iterations L')%Z -> (exists v, r = Ok v) ->
      target_params L' = online L')) /\
  (forall (pol : @rpolicy Obs P H) s L,
     let '(L', r) := drqn_update cfg opt_step sched_step opt_lr pol s L in
     iterations L' = (iterations L + 1)%Z /\
     (~ (sync_frequency cfg | iterations L')%Z -> target_params L' = target_params L) /\
     ((sync_frequency cfg | iterations L')%Z -> (exists v, r = Ok v) ->
      target_params L' = online L')) /\
  (forall (pol : @qpolicy Obs P) s L,
     let '(L', r) := perdqn_update cfg opt_step sched_step opt_lr pol s L in
     iterations L' = (iterations L + 1)%Z /\
     (~ (sync_frequency cfg | iterations L')%Z -> target_params L' = target_params L) /\
     ((sync_frequency cfg | iterations L')%Z -> (exists v, r = Ok v) ->
      target_params L' = online L')).
Proof.
  split; [|split]; intros pol s L.
  - unfold ddqn_update. sync_case.
  - unfold drqn_update. sync_case.
  - unfold perdqn_update. sync_case.
Qed.

(** Extra: over a training run that calls [learner.update] on each batch
    in turn and never raises, with a positive sync frequency [f], the
    iteration counter advances by the number of batches, and once the run
    has at least [f] batches the final target parameters are the online
    parameters after some nonempty prefix of the run, followed by fewer
    than [f] further updates: the target network is never more than
    [f - 1] updates stale.  For all three learners. *)
Theorem run_target_staleness {Obs P OptState H : Type} (cfg : config)
  (opt_step : OptState -> P -> (P -> result Q) -> OptState * P)
  (sched_step : OptState -> OptState) (opt_lr : OptState -> Q) :
  (0 < sync_frequency cfg)%Z ->
  (forall (pol : @qpolicy Obs P) ss L L',
     run (ddqn_update cfg opt_step sched_step opt_lr pol) ss L = (L', Ok tt) ->
     iterations L' = (iterations L + Z.of_nat (length ss))%Z /\
     ((Z.to_nat (sync_frequency cfg) <= length ss)%nat ->
      exists ss1 ss2, ss = ss1 ++ ss2 /\ ss1 <> [] /\
        (length ss2 < Z.to_nat (sync_frequency cfg))%nat /\
        target_params L' =
          online (fst (run (ddqn_update cfg opt_step sched_step opt_lr pol) ss1 L)))) /\
  (forall (pol : @rpolicy Obs P H) ss L L',
     run (drqn_update cfg opt_step sched_step opt_lr pol) ss L = (L', Ok tt) ->
     iterations L' = (iterations L + Z.of_nat (length ss))%Z /\
     ((Z.to_nat (sync_frequency cfg) <= length ss)%nat ->
      exists ss1 ss2, ss = ss1 ++ ss2 /\ ss1 <> [] /\
        (length ss2 < Z.to_nat (sync_frequency cfg))%nat /\
        target_params L' =
          online (fst (run (drqn_update cfg opt_step sched_step opt_lr pol) ss1 L)))) /\
  (forall (pol : @qpolicy Obs P) ss L L',
     run (perdqn_update cfg opt_step sched_step opt_lr pol) ss L = (L', Ok tt) ->
     iterations L' = (iterations L + Z.of_nat (length ss))%Z /\
     ((Z.to_nat (sync_frequency cfg) <= length ss)%nat ->
      exists ss1 ss2, ss = ss1 ++ ss2 /\ ss1 <> [] /\
        (length ss2 < Z.to_nat (sync_frequency cfg))%nat /\
        target_params L' =
          online (fst (run (perdqn_update cfg opt_step sched_step opt_lr pol) ss1 L)))).
Proof.
  intros Hsf.
  destruct (@update_gates Obs P OptState H cfg opt_step sched_step opt_lr) as (G1 & G2 & G3).
  split; [|split]; intros pol ss L L' Hr; split.
  - exact (run_ok_iterations _ _ (G1 pol) _ _ _ Hr).
  - exact (run_staleness _ Hsf _ (G1 pol) _ _ _ Hr).
  - exact (run_ok_iterations _ _ (G2 pol) _ _ _ Hr).
  - exact (run_staleness _ Hsf _ (G2 pol) _ _ _ Hr).
  - exact (run_ok_iterations _ _ (G3 pol) _ _ _ Hr).
  - exact (run_staleness _ Hsf _ (G3 pol) _ _ _ Hr).
Qed.

Module ExtraWitnesses.
Import Concrete.

Lemma update_error_no_rollback_witness :
  (exists e, ddqn_forward cfg1 pol batch_noobs L0 = Err e /\
     ddqn_update cfg1 opt_step sched_step opt_lr pol batch_noobs L0 =
     ({| iterations := 1; online := 5%Z; target_params := 3%Z; optim := 0%Z |}, Err e)) /\
  (exists e, drqn_forward cfg1 rpol rbatch_noobs L0 = Err e /\
     drqn_update cfg1 opt_step sched_step opt_lr rpol rbatch_noobs L0 =
     ({| iterations := 1; online := 5%Z; target_params := 3%Z; optim := 0%Z |}, Err e)) /\
  (exists e, per_forward cfg1 pol batch_noobs L0 = Err e /\
     perdqn_update cfg1 opt_step sched_step opt_lr pol batch_noobs L0 =
     ({| iterations := 1; online := 5%Z; target_params := 3%Z; optim := 0%Z |}, Err e)).
Proof.
  pose proof (@update_error_no_rollback Z Z Z nat cfg1 opt_step sched_step opt_lr)
    as (G1 & G2 & G3).
  split; [|split].
  - destruct (ddqn_forward cfg1 pol batch_noobs L0) as [fo|e] eqn:E;
      [vm_compute in E; discriminate E|].
    exists e. split; [reflexivity|]. exact (G1 pol batch_noobs L0 e E).
  - destruct (drqn_forward cfg1 rpol rbatch_noobs L0) as [fo|e] eqn:E;
      [vm_compute in E; discriminate E|].
    exists e. split; [reflexivity|]. exact (G2 rpol rbatch_noobs L0 e E).
  - destruct (per_forward cfg1 pol batch_noobs L0) as [fo|e] eqn:E;
      [vm_compute in E; discriminate E|].
    exists e. split; [reflexivity|]. exact (G3 pol batch_noobs L0 e E).
Defined.

Lemma update_sync_zero_raises_witness :
  sync_frequency cfg0 = 0%Z /\
  (exists fo, ddqn_forward cfg0 pol batch L0 = Ok fo /\
     ddqn_update cfg0 opt_step sched_step opt_lr pol batch L0 =
     ({| iterations := 1; online := 6%Z; target_params := 3%Z; optim := 1%Z |},
      Err ZeroDivisionError)) /\
  (exists fo, drqn_forward cfg0 rpol rbatch L0 = Ok fo /\
     drqn_update cfg0 opt_step sched_step opt_lr rpol rbatch L0 =
     ({| iterations := 1; online := 6%Z; target_params := 3%Z; optim := 1%Z |},
      Err ZeroDivisionError)) /\
  (exists td fo, per_forward cfg0 pol batch L0 = Ok (td, fo) /\
     perdqn_update cfg0 opt_step sched_step opt_lr pol batch L0 =
     ({| iterations := 1; online := 6%Z; target_params := 3%Z; optim := 1%Z |},
      Err ZeroDivisionError)).
Proof.
  assert (H0 : sync_frequency cfg0 = 0%Z) by reflexivity.
  pose proof (@update_sync_zero_raises Z Z Z nat cfg0 opt_step sched_step opt_lr H0)
    as (G1 & G2 & G3).
  split; [exact H0|]. split; [|split].
  - destruct (ddqn_forward cfg0 pol batch L0) as [fo|e] eqn:E;
      [|vm_compute in E; discriminate E].
    exists fo. split; [reflexivity|]. exact (G1 pol batch L0 fo E).
  - destruct (drqn_forward cfg0 rpol rbatch L0) as [fo|e] eqn:E;
      [|vm_compute in E; discriminate E].
    exists fo. split; [reflexivity|]. exact (G2 rpol rbatch L0 fo E).
  - destruct (per_forward cfg0 pol batch L0) as [[td fo]|e] eqn:E;
      [|vm_compute in E; discriminate E].
    exists td, fo. split; [reflexivity|]. exact (G3 pol batch L0 td fo E).
Defined.

Lemma update_requires_keys_witness :
  (exists L' inf, ddqn_update cfg1 opt_step sched_step opt_lr pol batch L0 = (L', Ok inf) /\
     exists v, lookup "obs_next" batch = Some v) /\
  (exists L' inf, drqn_update cfg1 opt_step sched_step opt_lr rpol rbatch L0 = (L', Ok inf) /\
     exists v, lookup "batch_size" rbatch = Some v) /\
  (exists L' r, perdqn_update cfg2 opt_step sched_step opt_lr pol batch L0 = (L', Ok r) /\
     exists v, lookup "batch_size" batch = Some v).
Proof.
  pose proof (@update_requires_keys Z Z Z nat cfg1 opt_step sched_step opt_lr) as (G1 & G2 & _).
  pose proof (@update_requires_keys Z Z Z nat cfg2 opt_step sched_step opt_lr) as (_ & _ & G3).
  split; [|split].
  - destruct (ddqn_update cfg1 opt_step sched_step opt_lr pol batch L0) as [L' [inf|e]] eqn:E;
      [|vm_compute in E; discriminate E].
    exists L', inf. split; [reflexivity|].
    apply (G1 pol batch L0 L' inf E). simpl; tauto.
  - destruct (drqn_update cfg1 opt_step sched_step opt_lr rpol rbatch L0) as [L' [inf|e]] eqn:E;
      [|vm_compute in E; discriminate E].
    exists L', inf. split; [reflexivity|].
    apply (G2 rpol rbatch L0 L' inf E). simpl; tauto.
  - destruct (perdqn_update cfg2 opt_step sched_step opt_lr pol batch L0) as [L' [r|e]] eqn:E;
      [|vm_compute in E; discriminate E].
    exists L', r. split; [reflexivity|].
    apply (G3 pol batch L0 L' r E). simpl; tauto.
Defined.

Lemma update_reports_prestep_stats_witness :
  (exists L' inf, ddqn_update cfg1 opt_step sched_step opt_lr pol batch L0 = (L', Ok inf) /\
     exists fo, ddqn_forward cfg1 pol batch L0 = Ok fo /\
       inf = make_info cfg1 (loss_val fo) (opt_lr (optim L')) (qmean (predict_flat fo))) /\
  (exists L' inf, drqn_update cfg1 opt_step sched_step opt_lr rpol rbatch L0 = (L', Ok inf) /\
     exists fo, drqn_forward cfg1 rpol rbatch L0 = Ok fo /\
       inf = make_info cfg1 (loss_val fo) (opt_lr (optim L')) (qmean (predict_flat fo))) /\
  (exists L' td inf,
     perdqn_update cfg2 opt_step sched_step opt_lr pol batch L0 = (L', Ok (td, inf)) /\
     exists td0 fo, per_forward cfg2 pol batch L0 = Ok (td0, fo) /\ td = map Qabs td0 /\
       inf = make_info cfg2 (loss_val fo) (opt_lr (optim L')) (qmean (predict_flat fo))).
Proof.
  pose proof (@update_reports_prestep_stats Z Z Z nat cfg1 opt_step sched_step opt_lr)
    as (G1 & G2 & _).
  pose proof (@update_reports_prestep_stats Z Z Z nat cfg2 opt_step sched_step opt_lr)
    as (_ & _ & G3).
  split; [|split].
  - destruct (ddqn_update cfg1 opt_step sched_step opt_lr pol batch L0) as [L' [inf|e]] eqn:E;
      [|vm_compute in E; discriminate E].
    exists L', inf. split; [reflexivity|].
    destruct (G1 pol batch L0 L' inf E) as (fo & obs & act & Hf & _ & _ & _ & _ & _ & _ & Hi).
    exists fo. split; [exact Hf | exact Hi].
  - destruct (drqn_update cfg1 opt_step sched_step opt_lr rpol rbatch L0) as [L' [inf|e]] eqn:E;
      [|vm_compute in E; discriminate E].
    exists L', inf. split; [reflexivity|].
    destruct (G2 rpol rbatch L0 L' inf E) as (fo & Hf & _ & _ & _ & Hi).
    exists fo. split; [exact Hf | exact Hi].
  - destruct (perdqn_update cfg2 opt_step sched_step opt_lr pol batch L0)
      as [L' [[td inf]|e]] eqn:E; [|vm_compute in E; discriminate E].
    exists L', td, inf. split; [reflexivity|].
    destruct (G3 pol batch L0 L' td inf E)
      as (td0 & fo & st & obs & act & Hf & _ & _ & _ & _ & _ & _ & _ & Ht & Hi).
    exists td0, fo. split; [exact Hf|]. split; [exact Ht | exact Hi].
Defined.

Lemma info_keys_disjoint_ranks_witness :
  distributed_training cfg2 = true /\ distributed_training cfg3 = true /\
  rank cfg2 <> rank cfg3 /\
  forall k, In k (map fst (make_info cfg2 1 1 1)) -> ~ In k (map fst (make_info cfg3 1 1 1)).
Proof.
  assert (D2 : distributed_training cfg2 = true) by reflexivity.
  assert (D3 : distributed_training cfg3 = true) by reflexivity.
  assert (R : rank cfg2 <> rank cfg3) by discriminate.
  split; [exact D2|]. split; [exact D3|]. split; [exact R|].
  exact (info_keys_disjoint_ranks cfg2 cfg3 1 1 1 1 1 1 D2 D3 R).
Defined.




Lemma per_loss_mean_sq_td_witness :
  exists L' td inf,
    perdqn_update cfg2 opt_step sched_step opt_lr pol batch L0 = (L', Ok (td, inf)) /\
    exists v, nth_error inf 0 = Some ("Qloss/rank_0"%string, v) /\
      v == qmean (map (fun x => x * x) td).
Proof.
  destruct (perdqn_update cfg2 opt_step sched_step opt_lr pol batch L0)
    as [L' [[td inf]|e]] eqn:E; [|vm_compute in E; discriminate E].
  exists L', td, inf. split; [reflexivity|].
  destruct (per_loss_mean_sq_td cfg2 opt_step sched_step opt_lr pol batch L0 L' td inf E)
    as (k & v & Hn & Hk & Hv).
  exists v. rewrite Hn, Hk. split; [reflexivity | exact Hv].
Defined.

Lemma run_target_staleness_witness :
  exists L', run (ddqn_update cfg1 opt_step sched_step opt_lr pol) [batch; batch; batch] L0
               = (L', Ok tt) /\
    iterations L' = 3%Z /\
    exists ss1 ss2, [batch; batch; batch] = ss1 ++ ss2 /\ ss1 <> [] /\
      (length ss2 < 2)%nat /\
      target_params L' =
        online (fst (run (ddqn_update cfg1 opt_step sched_step opt_lr pol) ss1 L0)).
Proof.
  assert (Hsf : (0 < sync_frequency cfg1)%Z) by reflexivity.
  destruct (@run_target_staleness Z Z Z nat cfg1 opt_step sched_step opt_lr Hsf)
    as (G1 & _ & _).
  destruct (run (ddqn_update cfg1 opt_step sched_step opt_lr pol) [batch; batch; batch] L0)
    as [L' [[]|e]] eqn:E; [|vm_compute in E; discriminate E].
  exists L'. split; [reflexivity|].
  destruct (G1 pol _ L0 L' E) as (Hi & Hs).
  split; [rewrite Hi; reflexivity|].
  exact (Hs ltac:(cbn; lia)).
Defined.

End ExtraWitnesses.
